(** * A proof-of-work ledger: [Block] and [Blockchain] of [main.py]

    The development follows the Python source class by class.  Python
    [str] values are represented by their UTF-8 bytes (a Rocq [string]), so
    that [str.encode()] is the passage to the list of byte values; Python
    [int] is [Z].  [hashlib.sha256] is transcribed from FIPS 180-4 on 32-bit
    words carried by [Z], and runs inside Rocq.  The clock value returned by
    [time.time()] and its rendering [str(timestamp)] belong to the Python
    runtime: they are the interface [Clock], over which everything is
    stated.  The payload [data] may be any Python object: the type of the
    payloads and [str(data)] are part of the same interface, which also
    says how a [str] is a payload ([text]), printed by [str] as it is.
    Strings are those that [encode()] accepts: a lone surrogate, on which
    [encode()] raises [UnicodeEncodeError], has no UTF-8 bytes and is not
    among them.  Integers are those that [str] prints (the conversion has
    a limit of 4300 digits by default).

    A [Block] object is referenced from one place only (a local variable
    of [add_data], then one slot of [chain]), so blocks are values and the
    in-place assignments of [proof_of_work] return the new block.  The
    [while True] loop takes an iteration budget and answers [OutOfFuel]
    when it is used up; results about a call that returns say which budget
    is enough.  The [print] calls write to the console only: the functions of
    the two classes are given first without them, then again with the
    lines they print, together with the menu loop of the program. *)

From Stdlib Require Import ZArith List String Ascii Bool Lia Arith.
From Stdlib Require Import DecimalString.
From Stdlib Require DecimalPos DecimalZ.
Import ListNotations.

Local Open Scope Z_scope.
Local Open Scope string_scope.
Local Open Scope list_scope.

(** ** SHA-256 ([hashlib.sha256(...).hexdigest()]) *)

Module SHA256.

Definition mask32 : Z := 0xffffffff.

Definition add32 (x y : Z) : Z := Z.land (x + y) mask32.

Definition rotr (n x : Z) : Z :=
  Z.land (Z.lor (Z.shiftr x n) (Z.shiftl x (32 - n))) mask32.

Definition shr (n x : Z) : Z := Z.shiftr x n.

Definition Ch (x y z : Z) : Z :=
  Z.lxor (Z.land x y) (Z.land (Z.lxor x mask32) z).

Definition Maj (x y z : Z) : Z :=
  Z.lxor (Z.lxor (Z.land x y) (Z.land x z)) (Z.land y z).

Definition Sigma0 (x : Z) : Z := Z.lxor (Z.lxor (rotr 2 x) (rotr 13 x)) (rotr 22 x).
Definition Sigma1 (x : Z) : Z := Z.lxor (Z.lxor (rotr 6 x) (rotr 11 x)) (rotr 25 x).
Definition sigma0 (x : Z) : Z := Z.lxor (Z.lxor (rotr 7 x) (rotr 18 x)) (shr 3 x).
Definition sigma1 (x : Z) : Z := Z.lxor (Z.lxor (rotr 17 x) (rotr 19 x)) (shr 10 x).

(** The round constants are the first 32 bits of the fractional parts of
    the cube roots of the first 64 primes, the initial chaining words those
    of the square roots of the first 8 primes; they are computed here once
    and for all, from integer roots. *)
Definition is_prime (n : nat) : bool :=
  forallb (fun d => negb (n mod d =? 0)%nat) (seq 2 (n - 2)).

Definition primes : list Z :=
  Eval vm_compute in map Z.of_nat (firstn 64 (filter is_prime (seq 2 310))).

Fixpoint cube_root_bits (n : nat) (x r : Z) : Z :=
  match n with
  | O => r
  | S n' =>
      let c := r + 2 ^ Z.of_nat n' in
      if (c * c * c <=? x)%Z then cube_root_bits n' x c else cube_root_bits n' x r
  end.

Definition frac_cube_root (p : Z) : Z :=
  Z.land (cube_root_bits 40 (p * 2 ^ 96) 0) mask32.

Definition frac_square_root (p : Z) : Z :=
  Z.land (Z.sqrt (p * 2 ^ 64)) mask32.

Definition K : list Z := Eval vm_compute in map frac_cube_root primes.

(** The eight chaining words. *)
Record state : Type := mkState {
  wa : Z; wb : Z; wc : Z; wd : Z; we : Z; wf : Z; wg : Z; wh : Z
}.

Definition H0 : state :=
  Eval vm_compute in
    mkState (frac_square_root 2) (frac_square_root 3) (frac_square_root 5)
            (frac_square_root 7) (frac_square_root 11) (frac_square_root 13)
            (frac_square_root 17) (frac_square_root 19).

(** Padding: the byte 0x80, zero bytes up to 56 modulo 64, then the bit
    length on eight bytes, most significant first. *)
Definition be_bytes (n : nat) (v : Z) : list Z :=
  map (fun i => Z.land (Z.shiftr v (8 * Z.of_nat (n - 1 - i))) 0xff) (seq 0 n).

Definition pad (msg : list Z) : list Z :=
  let len := Z.of_nat (List.length msg) in
  msg ++ [0x80] ++ repeat 0 (Z.to_nat ((55 - len) mod 64))
      ++ be_bytes 8 (Z.land (8 * len) 0xffffffffffffffff).

(** Big-endian 32-bit words of a run of bytes. *)
Fixpoint words (bs : list Z) : list Z :=
  match bs with
  | b0 :: b1 :: b2 :: b3 :: rest =>
      Z.lor (Z.shiftl b0 24) (Z.lor (Z.shiftl b1 16) (Z.lor (Z.shiftl b2 8) b3))
      :: words rest
  | _ => []
  end.

(** Message schedule, kept most recent word first while it grows. *)
Fixpoint extend (n : nat) (rw : list Z) : list Z :=
  match n with
  | O => rw
  | S n' =>
      let w := add32 (add32 (add32 (sigma1 (nth 1 rw 0)) (nth 6 rw 0))
                            (sigma0 (nth 14 rw 0))) (nth 15 rw 0) in
      extend n' (w :: rw)
  end.

Definition schedule (m : list Z) : list Z := rev (extend 48 (rev m)).

Definition round (s : state) (kw : Z * Z) : state :=
  let (k, w) := kw in
  let t1 := add32 (add32 (add32 (add32 (wh s) (Sigma1 (we s)))
                                (Ch (we s) (wf s) (wg s))) k) w in
  let t2 := add32 (Sigma0 (wa s)) (Maj (wa s) (wb s) (wc s)) in
  mkState (add32 t1 t2) (wa s) (wb s) (wc s) (add32 (wd s) t1) (we s) (wf s) (wg s).

Definition compress (s : state) (m : list Z) : state :=
  let r := fold_left round (combine K (schedule m)) s in
  mkState (add32 (wa s) (wa r)) (add32 (wb s) (wb r))
          (add32 (wc s) (wc r)) (add32 (wd s) (wd r))
          (add32 (we s) (we r)) (add32 (wf s) (wf r))
          (add32 (wg s) (wg r)) (add32 (wh s) (wh r)).

Fixpoint blocks (n : nat) (bs : list Z) (s : state) : state :=
  match n with
  | O => s
  | S n' => blocks n' (skipn 64 bs) (compress s (words (firstn 64 bs)))
  end.

Definition digest (msg : list Z) : state :=
  let p := pad msg in blocks (List.length p / 64) p H0.

(** [hexdigest]: every word as eight lowercase hexadecimal digits. *)
Definition hexchars : list ascii :=
  list_ascii_of_string "0123456789abcdef".

Definition hexdigit (v : Z) : ascii :=
  nth (Z.to_nat (Z.land v 15)) hexchars "0"%char.

Definition hex8 (w : Z) (k : string) : string :=
  String (hexdigit (Z.shiftr w 28)) (String (hexdigit (Z.shiftr w 24))
  (String (hexdigit (Z.shiftr w 20)) (String (hexdigit (Z.shiftr w 16))
  (String (hexdigit (Z.shiftr w 12)) (String (hexdigit (Z.shiftr w 8))
  (String (hexdigit (Z.shiftr w 4)) (String (hexdigit w) k))))))).

Definition hex_of_state (s : state) : string :=
  hex8 (wa s) (hex8 (wb s) (hex8 (wc s) (hex8 (wd s)
  (hex8 (we s) (hex8 (wf s) (hex8 (wg s) (hex8 (wh s) ""))))))).

Definition hexdigest (msg : list Z) : string := hex_of_state (digest msg).

End SHA256.

(** [str.encode()]: the UTF-8 bytes of a string, as integers. *)
Definition encode (s : string) : list Z :=
  map (fun c => Z.of_nat (nat_of_ascii c)) (list_ascii_of_string s).

Definition sha256_hexdigest (s : string) : string :=
  SHA256.hexdigest (encode s).


(** ** Python built-ins used by the two classes *)

(** [str(n)] for an [int]: decimal digits, with a minus sign below zero. *)
Definition str_int (n : Z) : string := NilZero.string_of_int (Z.to_int n).

(** [s * n] for a [str] and an [int]: empty when [n <= 0]. *)
Definition str_mul (s : string) (n : Z) : string :=
  String.concat "" (repeat s (Z.to_nat n)).

(** [s.startswith(p)]. *)
Definition startswith (s p : string) : bool := String.prefix p s.

(** What a call can do: return, raise [IndexError], or use up the loop
    budget given to the unbounded [while True] of [proof_of_work]. *)
Inductive outcome (A : Type) : Type :=
| Returns (a : A)
| IndexError
| OutOfFuel.

Arguments Returns {A} a.
Arguments IndexError {A}.
Arguments OutOfFuel {A}.

(** What the Python runtime supplies: the values of [time.time()] and
    [str] on them; the objects that can be a payload and [str] on them, the
    [str] objects among them being printed as they are. *)
Class Clock : Type := {
  Timestamp : Type;
  str_timestamp : Timestamp -> string;
  Payload : Type;
  str_payload : Payload -> string;
  text : string -> Payload;
  str_text : forall s : string, str_payload (text s) = s
}.

#[warning="-uniform-inheritance"]
Coercion text : string >-> Payload.

Section Ledger.

Context {clock : Clock}.

(** *** [class Block] *)

Record Block : Type := mkBlock {
  index : Z;
  previous_hash : string;
  timestamp : Timestamp;
  data : Payload;
  proof : Z;
  hash : string
}.

(** Attribute assignments [block.f = v]. *)
Definition set_previous_hash (b : Block) (v : string) : Block :=
  mkBlock (index b) v (timestamp b) (data b) (proof b) (hash b).
Definition set_data (b : Block) (v : Payload) : Block :=
  mkBlock (index b) (previous_hash b) (timestamp b) v (proof b) (hash b).
Definition set_proof (b : Block) (v : Z) : Block :=
  mkBlock (index b) (previous_hash b) (timestamp b) (data b) v (hash b).
Definition set_hash (b : Block) (v : string) : Block :=
  mkBlock (index b) (previous_hash b) (timestamp b) (data b) (proof b) v.

(** The string [block_content] of [calculate_hash]. *)
Definition block_content (b : Block) : string :=
  (str_int (index b) ++ previous_hash b ++ str_timestamp (timestamp b)
   ++ str_payload (data b) ++ str_int (proof b))%string.

Definition calculate_hash (b : Block) : string :=
  sha256_hexdigest (block_content b).

(** [Block.__init__]: the five fields, then [self.hash]. *)
Definition Block_init (index : Z) (previous_hash : string)
    (timestamp : Timestamp) (data : Payload) (proof : Z) : Block :=
  let self := mkBlock index previous_hash timestamp data proof "" in
  set_hash self (calculate_hash self).

(** *** [class Blockchain] *)

Record Blockchain : Type := mkBlockchain {
  chain : list Block;
  difficulty : Z
}.

(** [create_genesis_block], at clock value [now]. *)
Definition create_genesis_block (now : Timestamp) : Block :=
  Block_init 0 "0" now "Genesis Block" 0.

(** [Blockchain.__init__]. *)
Definition Blockchain_init (now : Timestamp) : Blockchain :=
  mkBlockchain [create_genesis_block now] 2.

(** [self.chain[-1]]: the element at [len - 1], [IndexError] on []. *)
Definition get_latest_block (self : Blockchain) : outcome Block :=
  match chain self with
  | [] => IndexError
  | _ :: _ =>
      match nth_error (chain self) (List.length (chain self) - 1) with
      | Some b => Returns b
      | None => IndexError
      end
  end.

(** The [while True] loop of [proof_of_work], [fuel] iterations at most. *)
Fixpoint mine (fuel : nat) (difficulty : Z) (block : Block) : outcome Block :=
  match fuel with
  | O => OutOfFuel
  | S fuel' =>
      let block := set_hash block (calculate_hash block) in
      if startswith (hash block) (str_mul "0" difficulty) then Returns block
      else mine fuel' difficulty (set_proof block (proof block + 1))
  end.

(** [proof_of_work]; the block is mutated in place, here it is returned. *)
Definition proof_of_work (fuel : nat) (self : Blockchain) (block : Block)
  : outcome Block :=
  mine fuel (difficulty self) (set_proof block 0).

(** [add_data], at clock value [now]. *)
Definition add_data (fuel : nat) (now : Timestamp) (data : Payload)
    (self : Blockchain) : outcome Blockchain :=
  match get_latest_block self with
  | Returns latest =>
      let previous_hash := hash latest in
      let new_block :=
        Block_init (Z.of_nat (List.length (chain self))) previous_hash now data 0 in
      match proof_of_work fuel self new_block with
      | Returns new_block =>
          Returns (mkBlockchain (chain self ++ [new_block]) (difficulty self))
      | IndexError => IndexError
      | OutOfFuel => OutOfFuel
      end
  | IndexError => IndexError
  | OutOfFuel => OutOfFuel
  end.

(** The [for i in range(1, len(self.chain))] loop of [is_chain_valid]. *)
Fixpoint is_chain_valid_loop (chain : list Block) (range : list nat) : bool :=
  match range with
  | [] => true
  | i :: range' =>
      match nth_error chain i, nth_error chain (i - 1) with
      | Some current, Some previous =>
          if negb (hash current =? calculate_hash current)%string then false
          else if negb (previous_hash current =? hash previous)%string then false
          else is_chain_valid_loop chain range'
      | _, _ => false (* not reached: 1 <= i < len(chain) *)
      end
  end.

Definition is_chain_valid (self : Blockchain) : bool :=
  is_chain_valid_loop (chain self) (seq 1 (List.length (chain self) - 1)).

End Ledger.

(** ** Properties of a chain *)

Section Properties.

Context {clock : Clock}.

(** Chain linkage: [chain[i].previous_hash == chain[i-1].hash] for [i >= 1]. *)
Definition chain_linkage (c : list Block) : Prop :=
  forall i current previous, (1 <= i)%nat ->
    nth_error c i = Some current -> nth_error c (i - 1) = Some previous ->
    previous_hash current = hash previous.

(** Digest integrity: [block.hash == block.calculate_hash()]. *)
Definition digest_integrity (c : list Block) : Prop :=
  forall b, In b c -> hash b = calculate_hash b.

(** Index continuity: [chain[i].index == i]. *)
Definition index_continuity (c : list Block) : Prop :=
  forall i b, nth_error c i = Some b -> index b = Z.of_nat i.

Definition integrity (c : list Block) : Prop :=
  chain_linkage c /\ digest_integrity c /\ index_continuity c.

(** Ledgers obtained from [Blockchain()] by calls of [add_data] that
    return. *)
Inductive reachable : Blockchain -> Prop :=
| reachable_init (now : Timestamp) :
    reachable (Blockchain_init now)
| reachable_add_data (self self' : Blockchain) (fuel : nat)
    (now : Timestamp) (payload : Payload) :
    reachable self ->
    add_data fuel now payload self = Returns self' ->
    reachable self'.

(** The digest check of [proof_of_work] on [block] with [proof = n]. *)
Definition meets_difficulty (difficulty : Z) (block : Block) (n : Z) : bool :=
  startswith (calculate_hash (set_proof block n)) (str_mul "0" difficulty).

(** [block] once the loop has left it with [proof = n]: the digest is
    recomputed from the fields. *)
Definition seal (block : Block) (n : Z) : Block :=
  set_hash (set_proof block n) (calculate_hash (set_proof block n)).

(** An outside assignment [chain[i] = b'], the rest of the list as it is. *)
Fixpoint overwrite (c : list Block) (i : nat) (b' : Block) : list Block :=
  match c, i with
  | [], _ => []
  | _ :: rest, O => b' :: rest
  | b :: rest, S i' => b :: overwrite rest i' b'
  end.

End Properties.

(** Lowercase hexadecimal strings. *)
Definition is_lower_hex (c : ascii) : bool :=
  existsb (Ascii.eqb c) SHA256.hexchars.

Fixpoint string_forallb (p : ascii -> bool) (s : string) : bool :=
  match s with
  | EmptyString => true
  | String c s' => p c && string_forallb p s'
  end.

(** ** Payloads of two Python types

    A [str] and an [int], with [str] on them. *)
Inductive pyvalue : Type :=
| PyStr (s : string)
| PyInt (n : Z).

Definition str_pyvalue (v : pyvalue) : string :=
  match v with
  | PyStr s => s
  | PyInt n => str_int n
  end.

(** ** A concrete run

    Timestamps given by their printed form; payloads of the two types
    above. *)
Definition printed_clock : Clock :=
  {| Timestamp := string;
     str_timestamp := fun s => s;
     Payload := pyvalue;
     str_payload := str_pyvalue;
     text := PyStr;
     str_text := fun s => eq_refl |}.

Definition genesis0 : @Block printed_clock :=
  @create_genesis_block printed_clock "1730000000.0".

Definition ledger0 : @Blockchain printed_clock :=
  @Blockchain_init printed_clock "1730000000.0".

(** The block that [add_data("payment")] builds on [ledger0] before the
    search. *)
Definition candidate1 : @Block printed_clock :=
  @Block_init printed_clock 1 (hash genesis0) "1730000001.5" "payment" 0.

Definition block1 : @Block printed_clock :=
  @mkBlock printed_clock 1
    "8b53f106c9ff33c4012937e72fbd3bec65b0978dd4be45ca83ace3112e2cbdb9"
    "1730000001.5" "payment" 14
    "007274cd664587060059b266f015f59772f41430900be23157cf513f69e97eac".

Definition ledger1 : @Blockchain printed_clock :=
  @mkBlockchain printed_clock (chain ledger0 ++ [block1]) 2.

(** The payload ["5"], a [str], mined on [ledger0]. *)
Definition block5 : @Block printed_clock :=
  @mkBlock printed_clock 1
    "8b53f106c9ff33c4012937e72fbd3bec65b0978dd4be45ca83ace3112e2cbdb9"
    "1730000008.0" "5" 4
    "00684bc382f2a3a31641fe1c84bfaea27daca99a97934df720669c0ba0398b0d".

Definition ledger5 : @Blockchain printed_clock :=
  @mkBlockchain printed_clock (chain ledger0 ++ [block5]) 2.

(** ** More of the two classes *)

Section Outside.

Context {clock : Clock}.

(** The assignment [block.hash = block.calculate_hash()], as the loop of
    [proof_of_work] does it and as anyone holding the block can. *)
Definition rehash (b : Block) : Block := set_hash b (calculate_hash b).

(** What the search leaves in a block. *)
Definition mined (d : Z) (b : Block) : Prop :=
  startswith (hash b) (str_mul "0" d) = true
  /\ 0 <= proof b
  /\ (forall n : Z, 0 <= n < proof b -> meets_difficulty d b n = false).

End Outside.

(** ** The console

    What the program writes and reads: [print(line)] and
    [input(prompt)], in the order of the calls.  [input] takes the next line
    of the standard input and raises [EOFError] when there is none. *)
Inductive event : Type :=
| Printed (line : string)
| Prompted (prompt : string).

(** How a run of the menu loop ends: the [break] of choice 4, [EOFError]
    from [input], [IndexError] from [add_data], or a search that uses up
    its budget. *)
Inductive ending : Type :=
| Exited
| RaisedEOFError
| RaisedIndexError
| StillMining.

Definition newline : string := String "010"%char "".

Section Console.

Context {clock : Clock}.

(** [proof_of_work] with its progress lines. *)
Fixpoint mine_io (fuel : nat) (difficulty : Z) (block : Block)
  : list event * outcome Block :=
  match fuel with
  | O => ([], OutOfFuel)
  | S fuel' =>
      let block := set_hash block (calculate_hash block) in
      if startswith (hash block) (str_mul "0" difficulty) then ([], Returns block)
      else
        let block := set_proof block (proof block + 1) in
        let out :=
          if (proof block mod 1000 =? 0)%Z
          then [Printed ("Still mining... tried proof: " ++ str_int (proof block))%string]
          else [] in
        let (rest, r) := mine_io fuel' difficulty block in
        (out ++ rest, r)
  end.

Definition proof_of_work_io (fuel : nat) (self : Blockchain) (block : Block)
  : list event * outcome Block :=
  mine_io fuel (difficulty self) (set_proof block 0).

(** [add_data] with the lines of the search and its own. *)
Definition add_data_io (fuel : nat) (now : Timestamp) (data : Payload)
    (self : Blockchain) : list event * outcome Blockchain :=
  match get_latest_block self with
  | Returns latest =>
      let previous_hash := hash latest in
      let new_block :=
        Block_init (Z.of_nat (List.length (chain self))) previous_hash now data 0 in
      let (out, r) := proof_of_work_io fuel self new_block in
      match r with
      | Returns new_block =>
          (out ++ [Printed ("Block " ++ str_int (index new_block)
                            ++ " mined with proof "
                            ++ str_int (proof new_block) ++ "!")%string],
           Returns (mkBlockchain (chain self ++ [new_block]) (difficulty self)))
      | IndexError => (out, IndexError)
      | OutOfFuel => (out, OutOfFuel)
      end
  | IndexError => ([], IndexError)
  | OutOfFuel => ([], OutOfFuel)
  end.

(** [is_chain_valid] with its diagnostic. *)
Fixpoint is_chain_valid_loop_io (chain : list Block) (range : list nat)
  : list event * bool :=
  match range with
  | [] => ([], true)
  | i :: range' =>
      match nth_error chain i, nth_error chain (i - 1) with
      | Some current, Some previous =>
          if negb (hash current =? calculate_hash current)%string then
            ([Printed ("Block " ++ str_int (index current) ++ " hash mismatch!")%string],
             false)
          else if negb (previous_hash current =? hash previous)%string then
            ([Printed ("Block " ++ str_int (index current)
                       ++ " previous hash doesn't match!")%string],
             false)
          else is_chain_valid_loop_io chain range'
      | _, _ => ([], false) (* not reached: 1 <= i < len(chain) *)
      end
  end.

Definition is_chain_valid_io (self : Blockchain) : list event * bool :=
  is_chain_valid_loop_io (chain self) (seq 1 (List.length (chain self) - 1)).

(** Choice 2: six lines for every block. *)
Definition display_block (block : Block) : list event :=
  [ Printed (newline ++ "Block Number: " ++ str_int (index block))%string;
    Printed ("  Timestamp: " ++ str_timestamp (timestamp block))%string;
    Printed ("  Data: " ++ str_payload (data block))%string;
    Printed ("  Proof: " ++ str_int (proof block))%string;
    Printed ("  Previous Hash: " ++ previous_hash block)%string;
    Printed ("  Hash: " ++ hash block)%string ].

Definition display (self : Blockchain) : list event :=
  flat_map display_block (chain self).

(** Choice 3. *)
Definition validate (self : Blockchain) : list event :=
  let (out, ok) := is_chain_valid_io self in
  out ++ [Printed (if ok then "Everything looks good! The blockchain is valid."
                   else "Warning! Blockchain integrity is compromised!")].

Definition menu : list event :=
  [ Printed (newline ++ "Options Menu:")%string;
    Printed "1. Add a new block";
    Printed "2. Display the blockchain";
    Printed "3. Validate blockchain integrity";
    Printed "4. Exit the program";
    Prompted "What do you want to do? Enter your choice: " ].

(** [str.strip] belongs to the Python runtime. *)
Variable strip : string -> string.

(** The [while True] loop of the program, on the lines [stdin] still to be
    read; [times k] is what the [k]-th call of [time.time()] returns, [tick]
    the number of calls made so far, [fuel] the budget of each search. *)
Fixpoint menu_loop (fuel : nat) (times : nat -> Timestamp) (tick : nat)
    (blockchain : Blockchain) (stdin : list string)
  : list event * Blockchain * ending :=
  match stdin with
  | [] => (menu, blockchain, RaisedEOFError)
  | line :: rest =>
      let choice := strip line in
      if (choice =? "1")%string then
        let ask := [Prompted "Type the data you want to store in the block: "] in
        match rest with
        | [] => (menu ++ ask, blockchain, RaisedEOFError)
        | data :: rest' =>
            let (out, r) := add_data_io fuel (times tick) (text data) blockchain in
            let before :=
              menu ++ ask ++ [Printed "Hold on, mining in progress..."] ++ out in
            match r with
            | Returns blockchain' =>
                let '(after, final, e) :=
                  menu_loop fuel times (S tick) blockchain' rest' in
                (before ++ [Printed "New block successfully added!"] ++ after,
                 final, e)
            | IndexError => (before, blockchain, RaisedIndexError)
            | OutOfFuel => (before, blockchain, StillMining)
            end
        end
      else if (choice =? "2")%string then
        let '(after, final, e) := menu_loop fuel times tick blockchain rest in
        (menu ++ display blockchain ++ after, final, e)
      else if (choice =? "3")%string then
        let '(after, final, e) := menu_loop fuel times tick blockchain rest in
        (menu ++ validate blockchain ++ after, final, e)
      else if (choice =? "4")%string then
        (menu ++ [Printed "Exiting the blockchain program. See ya!"],
         blockchain, Exited)
      else
        let '(after, final, e) := menu_loop fuel times tick blockchain rest in
        (menu ++ [Printed "Invalid choice, please select 1, 2, 3, or 4."] ++ after,
         final, e)
  end.

(** The program: [Blockchain()] makes the first call of [time.time()]. *)
Definition main (fuel : nat) (times : nat -> Timestamp) (stdin : list string)
  : list event * Blockchain * ending :=
  menu_loop fuel times 1 (Blockchain_init (times 0%nat)) stdin.

(** The payloads a run stores: the line after each choice 1, up to the
    choice 4. *)
Fixpoint payloads (stdin : list string) : list Payload :=
  match stdin with
  | [] => []
  | line :: rest =>
      if (strip line =? "1")%string then
        match rest with
        | [] => []
        | data :: rest' => text data :: payloads rest'
        end
      else if (strip line =? "4")%string then []
      else payloads rest
  end.

End Console.

(** The two checks of [is_chain_valid] at position [j]. *)
Definition block_passes {clock : Clock} (c : list Block) (j : nat) : Prop :=
  exists current previous : Block,
    nth_error c j = Some current /\ nth_error c (j - 1) = Some previous
    /\ hash current = calculate_hash current
    /\ previous_hash current = hash previous.

(** The diagnostic for [current]: the digest is looked at first. *)
Definition diagnostic {clock : Clock} (current : Block) : event :=
  if (hash current =? calculate_hash current)%string
  then Printed ("Block " ++ str_int (index current)
                ++ " previous hash doesn't match!")%string
  else Printed ("Block " ++ str_int (index current) ++ " hash mismatch!")%string.

(** The three parts of what a run gives. *)
Definition session_out {clock : Clock}
    (r : list event * Blockchain * ending) : list event := fst (fst r).
Definition session_ledger {clock : Clock}
    (r : list event * Blockchain * ending) : Blockchain := snd (fst r).
Definition session_end {clock : Clock}
    (r : list event * Blockchain * ending) : ending := snd r.

(** Tests on events. *)
Definition is_warning (e : event) : bool :=
  match e with
  | Printed s =>
      (s =? "Warning! Blockchain integrity is compromised!")%string
  | Prompted _ => false
  end.

Definition is_added (e : event) : bool :=
  match e with
  | Printed s => (s =? "New block successfully added!")%string
  | Prompted _ => false
  end.

(** The progress lines up to a final proof: one for every multiple of
    1000 from 1000 on. *)
Definition progress_lines (final : Z) : list event :=
  map (fun m => Printed ("Still mining... tried proof: "
                         ++ str_int (1000 * Z.of_nat m))%string)
      (seq 1 (Z.to_nat (final / 1000))).

(** [str.strip] on ASCII text: the characters 9 to 13 and 28 to 32 go,
    at both ends.  (On other text Python also removes the Unicode spaces.) *)
Definition is_space (c : ascii) : bool :=
  let n := nat_of_ascii c in
  ((9 <=? n)%nat && (n <=? 13)%nat) || ((28 <=? n)%nat && (n <=? 32)%nat).

Fixpoint lstrip (s : string) : string :=
  match s with
  | EmptyString => EmptyString
  | String c s' => if is_space c then lstrip s' else s
  end.

Fixpoint rstrip (s : string) : string :=
  match s with
  | EmptyString => EmptyString
  | String c s' =>
      match rstrip s' with
      | EmptyString => if is_space c then EmptyString else String c EmptyString
      | r => String c r
      end
  end.

Definition strip_ascii (s : string) : string := rstrip (lstrip s).

(** A session at the keyboard: a block is added, the chain is shown and
    checked, a wrong choice is made, the program is left; one more line
    stays unread. *)
Definition session_times (k : nat) : string :=
  match k with
  | O => "1730000000.0"
  | _ => "1730000001.5"
  end.

Definition session_stdin : list string :=
  [" 1 "; "payment"; "2"; "3"; "9"; "4"; "1"].

(** A block whose search takes more than 1000 steps, and what it ends
    as. *)
Definition slow_candidate : @Block printed_clock :=
  @Block_init printed_clock 1 "0" "3.5" "a" 0.

Definition slow_block : @Block printed_clock :=
  @mkBlock printed_clock 1 "0" "3.5" "a" 1050
    "002494e388b133939bebc4e12ce9094513e81989dfb53c653c96cbbd64166f64".

(** [ledger1] with the payload of block 1 replaced. *)
Definition ledger1_tampered : @Blockchain printed_clock :=
  @mkBlockchain printed_clock
    (overwrite (chain ledger1) 1 (set_data block1 "tampered")) 2.

(** A third block on [ledger1]. *)
Definition block2 : @Block printed_clock :=
  @mkBlock printed_clock 2
    "007274cd664587060059b266f015f59772f41430900be23157cf513f69e97eac"
    "1730000004.5" "transfer" 14
    "00f99a1832b9bc777eb30ef7eb25e9e060a356e099c562c48db878780ad89306".

Definition ledger2 : @Blockchain printed_clock :=
  @mkBlockchain printed_clock (chain ledger1 ++ [block2]) 2.

(** Ledgers for the edge cases of the difficulty, and a block built
    without any search. *)
Definition ledger_easy : @Blockchain printed_clock :=
  @mkBlockchain printed_clock (chain ledger0) 0.

Definition ledger_hopeless : @Blockchain printed_clock :=
  @mkBlockchain printed_clock (chain ledger0) 65.

Definition unmined7 : @Block printed_clock :=
  @Block_init printed_clock 7 (hash genesis0) "1730000002.25" "forged" 0.

(** ** SHA-256 test vectors (FIPS 180-4) *)

Example round_constants :
  List.length SHA256.K = 64%nat
  /\ nth 0 SHA256.K 0 = 0x428a2f98 /\ nth 63 SHA256.K 0 = 0xc67178f2.
Proof. repeat split. Qed.

Example initial_words :
  SHA256.wa SHA256.H0 = 0x6a09e667 /\ SHA256.wh SHA256.H0 = 0x5be0cd19.
Proof. split; reflexivity. Qed.

Example sha256_empty :
  sha256_hexdigest "" =
  "e3b0c44298fc1c149afbf4c8996fb92427ae41e4649b934ca495991b7852b855".
Proof. vm_compute. reflexivity. Qed.

Example sha256_abc :
  sha256_hexdigest "abc" =
  "ba7816bf8f01cfea414140de5dae2223b00361a396177a9cb410ff61f20015ad".
Proof. vm_compute. reflexivity. Qed.

Example sha256_two_blocks :
  sha256_hexdigest "abcdbcdecdefdefgefghfghighijhijkijkljklmklmnlmnomnopnopq" =
  "248d6a61d20638b8e5c026930c3e6039a33ce45964ff2167f6ecedd419db06c1".
Proof. vm_compute. reflexivity. Qed.



(** ** The shape of a digest *)

Lemma hexdigit_lower (v : Z) : is_lower_hex (SHA256.hexdigit v) = true.
Proof.
  unfold is_lower_hex, SHA256.hexdigit.
  apply existsb_exists.
  destruct (nth_in_or_default (Z.to_nat (Z.land v 15)) SHA256.hexchars "0"%char)
    as [Hin | Hd].
  - eexists; split; [exact Hin | apply Ascii.eqb_refl].
  - rewrite Hd. exists "0"%char. split; [left; reflexivity | reflexivity].
Qed.

Lemma hex8_length (w : Z) (k : string) :
  String.length (SHA256.hex8 w k) = (8 + String.length k)%nat.
Proof. reflexivity. Qed.

Lemma hex8_lower (w : Z) (k : string) :
  string_forallb is_lower_hex (SHA256.hex8 w k) = string_forallb is_lower_hex k.
Proof.
  unfold SHA256.hex8. cbn [string_forallb].
  rewrite !hexdigit_lower. reflexivity.
Qed.

Lemma hexdigest_length (msg : list Z) :
  String.length (SHA256.hexdigest msg) = 64%nat.
Proof.
  unfold SHA256.hexdigest, SHA256.hex_of_state.
  rewrite !hex8_length. reflexivity.
Qed.

Lemma hexdigest_lower (msg : list Z) :
  string_forallb is_lower_hex (SHA256.hexdigest msg) = true.
Proof.
  unfold SHA256.hexdigest, SHA256.hex_of_state.
  rewrite !hex8_lower. reflexivity.
Qed.

(** [encode] loses nothing: the bytes determine the string. *)
Lemma encode_inj : forall s t : string, encode s = encode t -> s = t.
Proof.
  unfold encode.
  induction s as [| c s IH]; intros [| d t] H; cbn in H; try discriminate H.
  - reflexivity.
  - injection H as Hc Hs. f_equal; [| apply IH; exact Hs].
    apply Nat2Z.inj in Hc.
    rewrite <- (ascii_nat_embedding c), <- (ascii_nat_embedding d), Hc.
    reflexivity.
Qed.

Arguments sha256_hexdigest : simpl never.

Section Theory.

Context {clock : Clock}.

(** *** [Block] *)

Lemma calculate_hash_set_hash (b : Block) (h : string) :
  calculate_hash (set_hash b h) = calculate_hash b.
Proof. reflexivity. Qed.

Lemma hash_Block_init i p t d n :
  hash (Block_init i p t d n) = calculate_hash (Block_init i p t d n).
Proof. reflexivity. Qed.

(** C2. [calculate_hash] is the SHA-256 hexdigest of
    [str(index) + previous_hash + str(timestamp) + str(data) + str(proof)],
    encoded; it has 64 characters, all of them lowercase hexadecimal digits;
    and it is a function of the five fields alone: whatever the stored
    [hash], equal fields give the same digest.  The encoding keeps the
    whole string, the digest function gives the FIPS 180-4 test vectors of
    SHA-256, and on a block and its five variants, one field changed in
    each, [calculate_hash] gives the digests that [hashlib] gives, all
    different. *)
Theorem calculate_hash_spec (b : Block) :
  calculate_hash b =
    SHA256.hexdigest
      (encode (str_int (index b) ++ previous_hash b
               ++ str_timestamp (timestamp b) ++ str_payload (data b)
               ++ str_int (proof b))%string)
  /\ String.length (calculate_hash b) = 64%nat
  /\ string_forallb is_lower_hex (calculate_hash b) = true
  /\ (forall h' : string,
        calculate_hash
          (mkBlock (index b) (previous_hash b) (timestamp b) (data b)
                   (proof b) h')
        = calculate_hash b)
  /\ (forall s t : string, encode s = encode t -> s = t)
  /\ (sha256_hexdigest ""
      = "e3b0c44298fc1c149afbf4c8996fb92427ae41e4649b934ca495991b7852b855"
      /\ sha256_hexdigest "abc"
         = "ba7816bf8f01cfea414140de5dae2223b00361a396177a9cb410ff61f20015ad"
      /\ sha256_hexdigest
           "abcdbcdecdefdefgefghfghighijhijkijkljklmklmnlmnomnopnopq"
         = "248d6a61d20638b8e5c026930c3e6039a33ce45964ff2167f6ecedd419db06c1")
  /\ (forall (t : Timestamp) (h : string),
        str_timestamp t = "1730000000.0" ->
        calculate_hash (mkBlock 0 "0" t "Genesis Block" 0 h)
        = "8b53f106c9ff33c4012937e72fbd3bec65b0978dd4be45ca83ace3112e2cbdb9"
        /\ calculate_hash (mkBlock 1 "0" t "Genesis Block" 0 h)
           = "67a7c73764f38b56ba60101eaafb90caef645ee2cbc92cc34b1a63fe86eb9aeb"
        /\ calculate_hash (mkBlock 0 "00" t "Genesis Block" 0 h)
           = "f9af6f4ccf7dee6807ff6ad68d15b48dafe6521dc915ca6bc70035b4b27e03a1"
        /\ calculate_hash (mkBlock 0 "0" t "genesis block" 0 h)
           = "c44b071b38d517a06c9554a07c05ea0c8c97997e58a99670e9af36f40f8b78cc"
        /\ calculate_hash (mkBlock 0 "0" t "Genesis Block" 1 h)
           = "f20bf9f8cd77e26e9acbe4f3f81273ac1d971ffe3f6d7d3b38998b10bb20c265")
  /\ (forall (t : Timestamp) (h : string),
        str_timestamp t = "1730000000.5" ->
        calculate_hash (mkBlock 0 "0" t "Genesis Block" 0 h)
        = "57791e3907fc6986031ab07f96c2b7073e9d00867c40631476cc63d0f24bd22c").
Proof.
  split; [reflexivity |].
  split; [apply hexdigest_length |].
  split; [apply hexdigest_lower |].
  split; [intros h'; reflexivity |].
  split; [exact encode_inj |].
  split; [repeat split; vm_compute; reflexivity |].
  split.
  - intros t h Ht.
    unfold calculate_hash, block_content.
    cbn [index previous_hash timestamp data proof].
    rewrite Ht, !str_text.
    repeat split; vm_compute; reflexivity.
  - intros t h Ht.
    unfold calculate_hash, block_content.
    cbn [index previous_hash timestamp data proof].
    rewrite Ht, !str_text. vm_compute. reflexivity.
Qed.

(** C9. The serialization has no separators and is not injective: two
    blocks that differ in [data] and in [proof] have the same
    [block_content], hence the same digest. *)
Theorem block_content_not_injective (now : Timestamp) :
  exists b1 b2 : Block,
    data b1 <> data b2 /\ proof b1 <> proof b2
    /\ index b1 = index b2 /\ previous_hash b1 = previous_hash b2
    /\ timestamp b1 = timestamp b2
    /\ block_content b1 = block_content b2
    /\ calculate_hash b1 = calculate_hash b2.
Proof.
  exists (Block_init 1 "0" now "tx1" 2), (Block_init 1 "0" now "tx" 12).
  assert (Hc : block_content (Block_init 1 "0" now "tx1" 2)
               = block_content (Block_init 1 "0" now "tx" 12)).
  { unfold block_content, Block_init.
    cbn [index previous_hash timestamp data proof set_hash].
    rewrite !str_text. reflexivity. }
  split.
  { cbn [data Block_init set_hash]. intros H.
    apply (f_equal str_payload) in H. rewrite !str_text in H. discriminate H. }
  split; [discriminate |].
  do 3 (split; [reflexivity |]).
  split; [exact Hc |].
  unfold calculate_hash. rewrite Hc. reflexivity.
Qed.

(** *** The search loop of [proof_of_work] *)

Lemma mine_hash_irrelevant fuel d i p t x n h1 h2 :
  mine fuel d (mkBlock i p t x n h1) = mine fuel d (mkBlock i p t x n h2).
Proof. destruct fuel; reflexivity. Qed.

Lemma mine_step fuel d (b : Block) (n : Z) :
  mine (S fuel) d (set_proof b n) =
  if meets_difficulty d b n then Returns (seal b n)
  else mine fuel d (set_proof b (n + 1)).
Proof.
  cbn [mine]. unfold meets_difficulty.
  change (hash (set_hash (set_proof b n) (calculate_hash (set_proof b n))))
    with (calculate_hash (set_proof b n)).
  destruct (startswith (calculate_hash (set_proof b n)) (str_mul "0" d)).
  - reflexivity.
  - apply mine_hash_irrelevant.
Qed.

Lemma mine_search fuel d (b : Block) : forall (n : Z) (b' : Block),
  mine fuel d (set_proof b n) = Returns b' ->
  exists k : nat,
    (k < fuel)%nat /\ b' = seal b (n + Z.of_nat k)
    /\ meets_difficulty d b (n + Z.of_nat k) = true
    /\ (forall j : nat, (j < k)%nat ->
          meets_difficulty d b (n + Z.of_nat j) = false).
Proof.
  induction fuel as [| fuel IH]; intros n b' H.
  - discriminate H.
  - rewrite mine_step in H.
    destruct (meets_difficulty d b n) eqn:Hn.
    + injection H as <-. exists 0%nat.
      rewrite Z.add_0_r. repeat split; [lia | exact Hn | intros j Hj; lia].
    + destruct (IH _ _ H) as (k & Hk & Hb & Hm & Hlow).
      exists (S k).
      replace (n + Z.of_nat (S k)) with (n + 1 + Z.of_nat k) by lia.
      repeat split; [lia | exact Hb | exact Hm |].
      intros [| j] Hj.
      * rewrite Z.add_0_r. exact Hn.
      * replace (n + Z.of_nat (S j)) with (n + 1 + Z.of_nat j) by lia.
        apply Hlow. lia.
Qed.

Lemma mine_finds d (b : Block) : forall (k fuel : nat) (n : Z),
  (k < fuel)%nat ->
  meets_difficulty d b (n + Z.of_nat k) = true ->
  (forall j : nat, (j < k)%nat ->
     meets_difficulty d b (n + Z.of_nat j) = false) ->
  mine fuel d (set_proof b n) = Returns (seal b (n + Z.of_nat k)).
Proof.
  induction k as [| k IH]; intros fuel n Hf Hm Hlow;
    (destruct fuel as [| fuel]; [lia |]); rewrite mine_step.
  - rewrite Z.add_0_r in *. rewrite Hm. reflexivity.
  - specialize (Hlow 0%nat ltac:(lia)) as H0. rewrite Z.add_0_r in H0.
    rewrite H0.
    replace (n + Z.of_nat (S k)) with (n + 1 + Z.of_nat k) in * by lia.
    apply IH; [lia | exact Hm |].
    intros j Hj. specialize (Hlow (S j) ltac:(lia)).
    replace (n + Z.of_nat (S j)) with (n + 1 + Z.of_nat j) in Hlow by lia.
    exact Hlow.
Qed.

Lemma mine_starves d (b : Block) : forall (fuel : nat) (n : Z),
  (forall j : nat, (j < fuel)%nat ->
     meets_difficulty d b (n + Z.of_nat j) = false) ->
  mine fuel d (set_proof b n) = OutOfFuel.
Proof.
  induction fuel as [| fuel IH]; intros n Hlow; [reflexivity |].
  rewrite mine_step.
  specialize (Hlow 0%nat ltac:(lia)) as H0. rewrite Z.add_0_r in H0.
  rewrite H0. apply IH. intros j Hj.
  specialize (Hlow (S j) ltac:(lia)).
  replace (n + Z.of_nat (S j)) with (n + 1 + Z.of_nat j) in Hlow by lia.
  exact Hlow.
Qed.

Lemma mine_total d (b : Block) : forall (k : nat) (n : Z),
  meets_difficulty d b (n + Z.of_nat k) = true ->
  exists b' : Block, mine (S k) d (set_proof b n) = Returns b'.
Proof.
  induction k as [| k IH]; intros n Hm; rewrite mine_step.
  - rewrite Z.add_0_r in Hm. rewrite Hm. eauto.
  - destruct (meets_difficulty d b n); [eauto |].
    apply IH. replace (n + 1 + Z.of_nat k) with (n + Z.of_nat (S k)) by lia.
    exact Hm.
Qed.

Lemma proof_of_work_inv fuel (self : Blockchain) (b b' : Block) :
  proof_of_work fuel self b = Returns b' ->
  exists k : nat,
    (k < fuel)%nat /\ b' = seal b (Z.of_nat k)
    /\ meets_difficulty (difficulty self) b (Z.of_nat k) = true
    /\ (forall j : nat, (j < k)%nat ->
          meets_difficulty (difficulty self) b (Z.of_nat j) = false).
Proof.
  unfold proof_of_work. intros H.
  destruct (mine_search _ _ _ _ _ H) as (k & Hk & Hb & Hm & Hlow).
  exists k. rewrite Z.add_0_l in *. repeat split; auto.
Qed.

Lemma proof_of_work_finds (self : Blockchain) (b : Block) (k fuel : nat) :
  (k < fuel)%nat ->
  meets_difficulty (difficulty self) b (Z.of_nat k) = true ->
  (forall j : nat, (j < k)%nat ->
     meets_difficulty (difficulty self) b (Z.of_nat j) = false) ->
  proof_of_work fuel self b = Returns (seal b (Z.of_nat k)).
Proof.
  intros Hk Hm Hlow. unfold proof_of_work.
  replace (Z.of_nat k) with (0 + Z.of_nat k) by lia.
  apply mine_finds; [exact Hk | exact Hm | exact Hlow].
Qed.

Lemma proof_of_work_starves (self : Blockchain) (b : Block) (fuel : nat) :
  (forall j : nat, (j < fuel)%nat ->
     meets_difficulty (difficulty self) b (Z.of_nat j) = false) ->
  proof_of_work fuel self b = OutOfFuel.
Proof.
  intros Hlow. unfold proof_of_work. apply mine_starves. exact Hlow.
Qed.

(** A proof that passes gives a least one, which the search returns. *)
Lemma proof_of_work_total (self : Blockchain) (b : Block) (n : Z) :
  0 <= n ->
  meets_difficulty (difficulty self) b n = true ->
  exists k : nat,
    (k <= Z.to_nat n)%nat
    /\ meets_difficulty (difficulty self) b (Z.of_nat k) = true
    /\ (forall j : nat, (j < k)%nat ->
          meets_difficulty (difficulty self) b (Z.of_nat j) = false).
Proof.
  intros Hn Hm.
  destruct (mine_total (difficulty self) b (Z.to_nat n) 0) as [b' Hb'].
  { rewrite Z.add_0_l, Z2Nat.id by lia. exact Hm. }
  destruct (mine_search _ _ _ _ _ Hb') as (k & Hk & _ & Hmk & Hlow).
  exists k. rewrite Z.add_0_l in *. repeat split; [lia | exact Hmk | exact Hlow].
Qed.

(** C3. When [proof_of_work] returns, the hash of the block starts with
    [difficulty] characters ['0'] and is the digest of its final fields,
    the other fields are as they were, and the search went through the
    proofs 0, 1, 2, ... in this order: every proof below the final one
    failed the check, and the call used exactly [proof + 1] iterations. *)
Theorem proof_of_work_post (fuel : nat) (self : Blockchain) (b b' : Block) :
  proof_of_work fuel self b = Returns b' ->
  startswith (hash b') (str_mul "0" (difficulty self)) = true
  /\ hash b' = calculate_hash b'
  /\ index b' = index b /\ previous_hash b' = previous_hash b
  /\ timestamp b' = timestamp b /\ data b' = data b
  /\ 0 <= proof b'
  /\ (forall n : Z, 0 <= n < proof b' ->
        meets_difficulty (difficulty self) b n = false)
  /\ (forall fuel' : nat,
        proof_of_work fuel' self b =
        if (fuel' <=? Z.to_nat (proof b'))%nat then OutOfFuel
        else Returns b').
Proof.
  intros H.
  destruct (proof_of_work_inv _ _ _ _ H) as (k & Hk & -> & Hm & Hlow).
  split; [exact Hm |].
  do 5 (split; [reflexivity |]).
  split; [cbn; lia |].
  split.
  - intros n Hn. cbn in Hn.
    specialize (Hlow (Z.to_nat n) ltac:(lia)).
    rewrite Z2Nat.id in Hlow by lia. exact Hlow.
  - intros fuel'. cbn [proof seal set_hash set_proof]. rewrite Nat2Z.id.
    destruct (Nat.leb_spec fuel' k) as [Hle | Hlt].
    + apply proof_of_work_starves. intros j Hj. apply Hlow. lia.
    + apply proof_of_work_finds; assumption.
Qed.

(** C10. If some proof [n >= 0] passes the check, [proof_of_work] returns
    (any budget above [n] is enough) and leaves in [proof] the least
    non-negative integer that passes it; the outcome does not depend on the
    value of [proof] on entry. *)
Theorem proof_of_work_least (self : Blockchain) (b : Block) (n : Z) :
  0 <= n ->
  meets_difficulty (difficulty self) b n = true ->
  exists b' : Block,
    (forall fuel : nat, (Z.to_nat n < fuel)%nat ->
       proof_of_work fuel self b = Returns b')
    /\ 0 <= proof b' <= n
    /\ meets_difficulty (difficulty self) b (proof b') = true
    /\ (forall m : Z, 0 <= m < proof b' ->
          meets_difficulty (difficulty self) b m = false)
    /\ (forall (fuel : nat) (p0 : Z),
          proof_of_work fuel self (set_proof b p0)
          = proof_of_work fuel self b).
Proof.
  intros Hn Hm.
  destruct (proof_of_work_total self b n Hn Hm) as (k & Hk & Hmk & Hlow).
  exists (seal b (Z.of_nat k)).
  split.
  { intros fuel Hf. apply proof_of_work_finds; [lia | exact Hmk | exact Hlow]. }
  split; [cbn; lia |].
  split; [exact Hmk |].
  split.
  - intros m Hm'. cbn in Hm'.
    specialize (Hlow (Z.to_nat m) ltac:(lia)).
    rewrite Z2Nat.id in Hlow by lia. exact Hlow.
  - intros fuel p0. reflexivity.
Qed.

(** *** [Blockchain] *)

(** C5. A fresh ledger holds one block, the genesis block, with
    [index == 0], [previous_hash == "0"], [proof == 0], the label
    ["Genesis Block"] as data, the construction time as timestamp and its own
    digest as hash; the difficulty is 2. *)
Theorem genesis_shape (now : Timestamp) :
  List.length (chain (Blockchain_init now)) = 1%nat
  /\ (exists g : Block,
        chain (Blockchain_init now) = [g]
        /\ index g = 0 /\ previous_hash g = "0" /\ proof g = 0
        /\ data g = "Genesis Block" /\ timestamp g = now
        /\ hash g = calculate_hash g)
  /\ difficulty (Blockchain_init now) = 2.
Proof.
  split; [reflexivity |].
  split; [| reflexivity].
  exists (create_genesis_block now).
  repeat split.
Qed.

(** *** [add_data] *)

Lemma get_latest_block_inv (self : Blockchain) (latest : Block) :
  get_latest_block self = Returns latest ->
  nth_error (chain self) (List.length (chain self) - 1) = Some latest.
Proof.
  unfold get_latest_block. destruct (chain self) as [| b c]; [discriminate |].
  destruct (nth_error (b :: c) (List.length (b :: c) - 1)); [| discriminate].
  intros H. injection H as ->. reflexivity.
Qed.

Lemma add_data_inv fuel now x (self self' : Blockchain) :
  add_data fuel now x self = Returns self' ->
  exists latest new_block : Block,
    get_latest_block self = Returns latest
    /\ proof_of_work fuel self
         (Block_init (Z.of_nat (List.length (chain self))) (hash latest) now x 0)
       = Returns new_block
    /\ self' = mkBlockchain (chain self ++ [new_block]) (difficulty self).
Proof.
  unfold add_data. destruct (get_latest_block self) as [latest | |];
    [| discriminate | discriminate].
  destruct (proof_of_work fuel self _) as [nb | |] eqn:Hp;
    [| discriminate | discriminate].
  intros H. injection H as <-. exists latest, nb. auto.
Qed.


(** *** Invariants of reachable ledgers *)

Lemma integrity_init (now : Timestamp) : integrity (chain (Blockchain_init now)).
Proof.
  repeat split.
  - intros i cur prev Hi Hc _. destruct i as [| [| i]]; [lia | |]; discriminate Hc.
  - intros b [<- | []]. reflexivity.
  - intros [| [| i]] b Hb; try discriminate Hb. injection Hb as <-. reflexivity.
Qed.

Lemma integrity_append (c : list Block) (latest nb : Block) :
  integrity c ->
  nth_error c (List.length c - 1) = Some latest ->
  hash nb = calculate_hash nb ->
  previous_hash nb = hash latest ->
  index nb = Z.of_nat (List.length c) ->
  integrity (c ++ [nb]).
Proof.
  intros (Hlink & Hdig & Hidx) Hl Hh Hp Hi. repeat split.
  - intros i cur prev H1 Hc Hpv.
    destruct (Nat.lt_trichotomy i (List.length c)) as [Hlt | [-> | Hgt]].
    + rewrite nth_error_app1 in Hc, Hpv by lia. eapply Hlink; eauto.
    + rewrite nth_error_app2, Nat.sub_diag in Hc by lia.
      injection Hc as <-.
      rewrite nth_error_app1 in Hpv by lia. congruence.
    + rewrite nth_error_app2 in Hc by lia.
      destruct (i - List.length c)%nat as [| [| k]] eqn:E; [lia | |];
        discriminate Hc.
  - intros b Hb. apply in_app_or in Hb as [Hb | [<- | []]]; auto.
  - intros i b Hb.
    destruct (Nat.lt_ge_cases i (List.length c)) as [Hlt | Hge].
    + rewrite nth_error_app1 in Hb by lia. auto.
    + rewrite nth_error_app2 in Hb by lia.
      destruct (i - List.length c)%nat as [| k] eqn:E.
      * injection Hb as <-. rewrite Hi. f_equal. lia.
      * destruct k; discriminate Hb.
Qed.

Lemma reachable_integrity_all (self : Blockchain) :
  reachable self -> integrity (chain self).
Proof.
  induction 1 as [now | self self' fuel now x Hr IH Ha].
  - apply integrity_init.
  - destruct (add_data_inv _ _ _ _ _ Ha) as (latest & nb & Hl & Hp & ->).
    destruct (proof_of_work_inv _ _ _ _ Hp) as (k & _ & -> & _ & _).
    apply (integrity_append (chain self) latest); auto.
    apply get_latest_block_inv. exact Hl.
Qed.

(** C1. Every ledger obtained from [Blockchain()] by calls of [add_data]
    satisfies chain linkage ([chain[i].previous_hash == chain[i-1].hash] for
    [i >= 1]), digest integrity ([hash == calculate_hash()] for every block)
    and index continuity ([chain[i].index == i]). *)
Theorem reachable_integrity (self : Blockchain) :
  reachable self ->
  chain_linkage (chain self)
  /\ digest_integrity (chain self)
  /\ index_continuity (chain self).
Proof.
  intros Hr. exact (reachable_integrity_all self Hr).
Qed.

(** *** [is_chain_valid] *)

Lemma is_chain_valid_loop_spec (c : list Block) (range : list nat) :
  is_chain_valid_loop c range = true <->
  (forall i : nat, In i range ->
     exists current previous : Block,
       nth_error c i = Some current /\ nth_error c (i - 1) = Some previous
       /\ hash current = calculate_hash current
       /\ previous_hash current = hash previous).
Proof.
  induction range as [| i range IH]; cbn [is_chain_valid_loop].
  - split; [intros _ i [] | reflexivity].
  - destruct (nth_error c i) as [cur |] eqn:Hc.
    2:{ split; [discriminate |]. intros H.
        destruct (H i (or_introl eq_refl)) as (? & ? & ? & _). congruence. }
    destruct (nth_error c (i - 1)) as [prev |] eqn:Hp.
    2:{ split; [discriminate |]. intros H.
        destruct (H i (or_introl eq_refl)) as (? & ? & _ & ? & _). congruence. }
    destruct (String.eqb_spec (hash cur) (calculate_hash cur)) as [Hh | Hh];
      cbn [negb].
    2:{ split; [discriminate |]. intros H.
        destruct (H i (or_introl eq_refl)) as (c' & p' & Hc' & Hp' & Hh' & _).
        rewrite Hc in Hc'. injection Hc' as <-. contradiction. }
    destruct (String.eqb_spec (previous_hash cur) (hash prev)) as [Hl | Hl];
      cbn [negb].
    2:{ split; [discriminate |]. intros H.
        destruct (H i (or_introl eq_refl)) as (c' & p' & Hc' & Hp' & _ & Hl').
        rewrite Hc in Hc'. injection Hc' as <-.
        rewrite Hp in Hp'. injection Hp' as <-. contradiction. }
    rewrite IH. split.
    + intros H j [<- | Hj]; [exists cur, prev; auto | auto].
    + intros H j Hj. apply H. right. exact Hj.
Qed.

Lemma integrity_valid (self : Blockchain) :
  chain_linkage (chain self) -> digest_integrity (chain self) ->
  is_chain_valid self = true.
Proof.
  intros Hlink Hdig. unfold is_chain_valid.
  apply is_chain_valid_loop_spec. intros i Hi. apply in_seq in Hi.
  destruct (nth_error (chain self) i) as [cur |] eqn:Hc.
  2:{ apply nth_error_None in Hc. lia. }
  destruct (nth_error (chain self) (i - 1)) as [prev |] eqn:Hp.
  2:{ apply nth_error_None in Hp. lia. }
  exists cur, prev. repeat split.
  - apply Hdig. eapply nth_error_In. exact Hc.
  - apply (Hlink i cur prev); [lia | exact Hc | exact Hp].
Qed.

(** C6. On every ledger obtained from [Blockchain()] by calls of
    [add_data], with no assignment from outside, [is_chain_valid()] returns
    [True]. *)
Theorem reachable_valid (self : Blockchain) :
  reachable self -> is_chain_valid self = true.
Proof.
  intros Hr. destruct (reachable_integrity_all self Hr) as (Hlink & Hdig & _).
  apply integrity_valid; assumption.
Qed.

(** The genesis block enters the loop only as [previous] at [i = 1]. *)
Lemma is_chain_valid_loop_genesis (g g' : Block) (rest : list Block) :
  hash g = hash g' ->
  forall range : list nat,
    (forall i : nat, In i range -> (1 <= i)%nat) ->
    is_chain_valid_loop (g :: rest) range
    = is_chain_valid_loop (g' :: rest) range.
Proof.
  intros Hh. induction range as [| i range IH]; intros Hr; [reflexivity |].
  cbn [is_chain_valid_loop].
  rewrite IH by (intros j Hj; apply Hr; right; exact Hj).
  destruct i as [| j]; [specialize (Hr 0%nat (or_introl eq_refl)); lia |].
  replace (S j - 1)%nat with j by lia. cbn [nth_error].
  destruct (nth_error rest j) as [cur |]; [| reflexivity].
  destruct j as [| j]; cbn [nth_error]; [rewrite Hh |]; reflexivity.
Qed.

(** C8. [is_chain_valid()] reads the genesis block through its stored
    [hash] only: two ledgers that differ in the other fields of [chain[0]]
    get the same answer; in particular a new [data] in the genesis block,
    the stored hash left as it is, changes nothing. *)
Theorem genesis_fields_unchecked (g g' : Block) (rest : list Block) (d : Z) :
  hash g = hash g' ->
  is_chain_valid (mkBlockchain (g :: rest) d)
  = is_chain_valid (mkBlockchain (g' :: rest) d)
  /\ (forall x : Payload,
        is_chain_valid (mkBlockchain (set_data g x :: rest) d)
        = is_chain_valid (mkBlockchain (g :: rest) d)).
Proof.
  intros Hh. unfold is_chain_valid. cbn [chain List.length]. split.
  - apply is_chain_valid_loop_genesis; [exact Hh |].
    intros i Hi. apply in_seq in Hi. lia.
  - intros x. apply is_chain_valid_loop_genesis; [reflexivity |].
    intros i Hi. apply in_seq in Hi. lia.
Qed.

(** *** Assignments from outside *)

Lemma length_overwrite (c : list Block) : forall (i : nat) (b' : Block),
  List.length (overwrite c i b') = List.length c.
Proof.
  induction c as [| b c IH]; intros [| i] b'; cbn; auto.
Qed.

Lemma nth_error_overwrite_eq (c : list Block) : forall (i : nat) (b' : Block),
  (i < List.length c)%nat -> nth_error (overwrite c i b') i = Some b'.
Proof.
  induction c as [| b c IH]; intros [| i] b' Hi; cbn in *; try lia; auto.
  apply IH. lia.
Qed.

Lemma nth_error_overwrite_neq (c : list Block) : forall (i j : nat) (b' : Block),
  i <> j -> nth_error (overwrite c i b') j = nth_error c j.
Proof.
  induction c as [| b c IH]; intros [| i] [| j] b' Hij; cbn; auto; try lia.
Qed.

(** A new [data] passes unnoticed exactly when the digest of the new
    fields is the stored hash. *)
Lemma tamper_data_valid (self : Blockchain) (i : nat) (b : Block) (x : Payload) :
  integrity (chain self) -> (1 <= i)%nat ->
  nth_error (chain self) i = Some b ->
  is_chain_valid
    (mkBlockchain (overwrite (chain self) i (set_data b x)) (difficulty self))
  = (hash b =? calculate_hash (set_data b x))%string.
Proof.
  intros (Hlink & Hdig & _) Hi Hb.
  assert (Hlen : (i < List.length (chain self))%nat).
  { apply nth_error_Some. congruence. }
  unfold is_chain_valid. cbn [chain]. rewrite length_overwrite.
  destruct (String.eqb_spec (hash b) (calculate_hash (set_data b x))) as [He | Hne].
  - apply is_chain_valid_loop_spec. intros j Hj. apply in_seq in Hj.
    destruct (nth_error (chain self) j) as [cur |] eqn:Hc.
    2:{ apply nth_error_None in Hc. lia. }
    destruct (nth_error (chain self) (j - 1)) as [prev |] eqn:Hp.
    2:{ apply nth_error_None in Hp. lia. }
    pose proof (Hlink j cur prev ltac:(lia) Hc Hp) as Hl.
    pose proof (Hdig cur (nth_error_In _ _ Hc)) as Hd.
    destruct (Nat.eq_dec i j) as [<- | Hij].
    + rewrite nth_error_overwrite_eq by exact Hlen.
      rewrite nth_error_overwrite_neq by lia.
      exists (set_data b x), prev. rewrite Hb in Hc. injection Hc as <-.
      repeat split; assumption.
    + rewrite (nth_error_overwrite_neq _ i j) by exact Hij.
      destruct (Nat.eq_dec i (j - 1)) as [Hi1 | Hi1].
      * rewrite <- Hi1. rewrite nth_error_overwrite_eq by exact Hlen.
        exists cur, (set_data b x). rewrite <- Hi1, Hb in Hp.
        injection Hp as <-. repeat split; assumption.
      * rewrite nth_error_overwrite_neq by exact Hi1.
        exists cur, prev. repeat split; assumption.
  - destruct (is_chain_valid_loop _ _) eqn:Hv; [| reflexivity].
    exfalso. apply Hne.
    destruct (proj1 (is_chain_valid_loop_spec _ _) Hv i) as (c' & _ & Hc' & _ & Hh & _).
    { apply in_seq. lia. }
    rewrite nth_error_overwrite_eq in Hc' by exact Hlen.
    injection Hc' as <-. exact Hh.
Qed.

(** A new [previous_hash] other than the hash of the block before is
    always noticed. *)
Lemma tamper_link_invalid (self : Blockchain) (i : nat) (b previous : Block)
    (p : string) :
  (1 <= i)%nat ->
  nth_error (chain self) i = Some b ->
  nth_error (chain self) (i - 1) = Some previous ->
  p <> hash previous ->
  is_chain_valid
    (mkBlockchain (overwrite (chain self) i (set_previous_hash b p))
                  (difficulty self))
  = false.
Proof.
  intros Hi Hb Hp Hne.
  assert (Hlen : (i < List.length (chain self))%nat).
  { apply nth_error_Some. congruence. }
  unfold is_chain_valid. cbn [chain]. rewrite length_overwrite.
  destruct (is_chain_valid_loop _ _) eqn:Hv; [| reflexivity].
  exfalso. apply Hne.
  destruct (proj1 (is_chain_valid_loop_spec _ _) Hv i)
    as (c' & p' & Hc' & Hp' & _ & Hl).
  { apply in_seq. lia. }
  rewrite nth_error_overwrite_eq in Hc' by exact Hlen.
  rewrite nth_error_overwrite_neq in Hp' by lia.
  injection Hc' as <-. rewrite Hp in Hp'. injection Hp' as <-. exact Hl.
Qed.

(** C7, as the code has it. On a ledger that satisfies the invariants, a
    new [data] in a block other than the genesis block, the stored hash
    left as it is, makes [is_chain_valid()] return [False] if and only if
    the digest of the block with the new data differs from the stored hash;
    a new [data] that [str] prints as it prints the old one is never
    noticed; a new [previous_hash] other than the stored hash of the block
    before always makes it return [False]. *)
Theorem tamper_detection (self : Blockchain) (i : nat) (b previous : Block) :
  integrity (chain self) -> (1 <= i)%nat ->
  nth_error (chain self) i = Some b ->
  nth_error (chain self) (i - 1) = Some previous ->
  (forall x : Payload,
     is_chain_valid
       (mkBlockchain (overwrite (chain self) i (set_data b x)) (difficulty self))
     = false
     <-> calculate_hash (set_data b x) <> hash b)
  /\ (forall x : Payload, str_payload x = str_payload (data b) ->
        is_chain_valid
          (mkBlockchain (overwrite (chain self) i (set_data b x))
                        (difficulty self))
        = true)
  /\ (forall p : string, p <> hash previous ->
        is_chain_valid
          (mkBlockchain (overwrite (chain self) i (set_previous_hash b p))
                        (difficulty self))
        = false).
Proof.
  intros Hint Hi Hb Hp. split; [| split].
  - intros x. rewrite (tamper_data_valid self i b x Hint Hi Hb).
    destruct (String.eqb_spec (hash b) (calculate_hash (set_data b x)));
      split; congruence.
  - intros x Hx. rewrite (tamper_data_valid self i b x Hint Hi Hb).
    apply String.eqb_eq.
    destruct Hint as (_ & Hdig & _).
    rewrite (Hdig b (nth_error_In _ _ Hb)).
    unfold calculate_hash, block_content.
    cbn [index previous_hash timestamp data proof set_data].
    rewrite Hx. reflexivity.
  - intros p Hne. apply (tamper_link_invalid self i b previous p); assumption.
Qed.

End Theory.

(** ** The concrete run, checked by evaluation *)

Lemma ledger1_mined :
  @add_data printed_clock 20 "1730000001.5" "payment" ledger0 = Returns ledger1.
Proof. vm_compute. reflexivity. Qed.

Lemma ledger1_reachable : @reachable printed_clock ledger1.
Proof.
  apply (@reachable_add_data printed_clock ledger0 ledger1 20%nat
           "1730000001.5" "payment").
  - apply (@reachable_init printed_clock "1730000000.0").
  - exact ledger1_mined.
Qed.

Lemma ledger5_mined :
  @add_data printed_clock 20 "1730000008.0" "5" ledger0 = Returns ledger5.
Proof. vm_compute. reflexivity. Qed.

Lemma ledger5_reachable : @reachable printed_clock ledger5.
Proof.
  apply (@reachable_add_data printed_clock ledger0 ledger5 20%nat
           "1730000008.0" "5").
  - apply (@reachable_init printed_clock "1730000000.0").
  - exact ledger5_mined.
Qed.

(** C7, as the claim words it, fails.  [ledger5] is built by
    [Blockchain()] and [add_data("5")] and satisfies the invariants; with
    the [str] ["5"] of its block 1 replaced by the [int] [5], another
    value, and the stored hash left as it is, [is_chain_valid()] still
    returns [True]: [str(data)] is the same. *)
Lemma tamper_claim_fails :
  @reachable printed_clock ledger5
  /\ integrity (chain ledger5)
  /\ nth_error (chain ledger5) 1 = Some block5
  /\ data block5 = PyStr "5"
  /\ PyInt 5 <> data block5
  /\ @is_chain_valid printed_clock
       (mkBlockchain (overwrite (chain ledger5) 1 (set_data block5 (PyInt 5)))
                     (difficulty ledger5))
     = true.
Proof.
  split; [exact ledger5_reachable |].
  split; [exact (@reachable_integrity_all printed_clock ledger5
                   ledger5_reachable) |].
  split; [reflexivity |].
  split; [reflexivity |].
  split; [discriminate |].
  vm_compute. reflexivity.
Qed.

(** The end-to-end scenario: ["payment"] replaced by ["tampered"] in
    block 1 of [ledger1] is reported. *)
Example tamper_block1_detected :
  @is_chain_valid printed_clock
    (mkBlockchain (overwrite (chain ledger1) 1 (set_data block1 "tampered")) 2)
  = false.
Proof. vm_compute. reflexivity. Qed.

(** ** Instances of the theorems on the concrete run *)

Lemma reachable_integrity_witness :
  @reachable printed_clock ledger1
  /\ (chain_linkage (chain ledger1)
      /\ digest_integrity (chain ledger1)
      /\ index_continuity (chain ledger1)).
Proof.
  split; [exact ledger1_reachable |].
  apply (@reachable_integrity printed_clock ledger1). exact ledger1_reachable.
Defined.

Lemma reachable_valid_witness :
  @reachable printed_clock ledger1
  /\ @is_chain_valid printed_clock ledger1 = true.
Proof.
  split; [exact ledger1_reachable |].
  apply (@reachable_valid printed_clock ledger1). exact ledger1_reachable.
Defined.

Lemma proof_of_work_post_witness :
  @proof_of_work printed_clock 20 ledger0 candidate1 = Returns block1
  /\ (startswith (hash block1) (str_mul "0" (difficulty ledger0)) = true
      /\ hash block1 = calculate_hash block1
      /\ index block1 = index candidate1
      /\ previous_hash block1 = previous_hash candidate1
      /\ timestamp block1 = timestamp candidate1
      /\ data block1 = data candidate1
      /\ 0 <= proof block1
      /\ (forall n : Z, 0 <= n < proof block1 ->
            meets_difficulty (difficulty ledger0) candidate1 n = false)
      /\ (forall fuel' : nat,
            @proof_of_work printed_clock fuel' ledger0 candidate1 =
            if (fuel' <=? Z.to_nat (proof block1))%nat then OutOfFuel
            else Returns block1)).
Proof.
  split; [vm_compute; reflexivity |].
  apply (@proof_of_work_post printed_clock 20 ledger0 candidate1 block1).
  vm_compute. reflexivity.
Defined.

Lemma proof_of_work_least_witness :
  0 <= 14
  /\ meets_difficulty (difficulty ledger0) candidate1 14 = true
  /\ (exists b' : @Block printed_clock,
        (forall fuel : nat, (Z.to_nat 14 < fuel)%nat ->
           proof_of_work fuel ledger0 candidate1 = Returns b')
        /\ 0 <= proof b' <= 14
        /\ meets_difficulty (difficulty ledger0) candidate1 (proof b') = true
        /\ (forall m : Z, 0 <= m < proof b' ->
              meets_difficulty (difficulty ledger0) candidate1 m = false)
        /\ (forall (fuel : nat) (p0 : Z),
              proof_of_work fuel ledger0 (set_proof candidate1 p0)
              = proof_of_work fuel ledger0 candidate1)).
Proof.
  split; [lia |].
  split; [vm_compute; reflexivity |].
  apply (@proof_of_work_least printed_clock ledger0 candidate1 14).
  - lia.
  - vm_compute. reflexivity.
Defined.


Lemma genesis_fields_unchecked_witness :
  hash genesis0 = hash (set_data genesis0 "forged")
  /\ (@is_chain_valid printed_clock (mkBlockchain (genesis0 :: [block1]) 2)
      = @is_chain_valid printed_clock
          (mkBlockchain (set_data genesis0 "forged" :: [block1]) 2)
      /\ (forall x : @Payload printed_clock,
            @is_chain_valid printed_clock
              (mkBlockchain (set_data genesis0 x :: [block1]) 2)
            = @is_chain_valid printed_clock
                (mkBlockchain (genesis0 :: [block1]) 2))).
Proof.
  split; [reflexivity |].
  apply (@genesis_fields_unchecked printed_clock genesis0
           (set_data genesis0 "forged") [block1] 2).
  reflexivity.
Defined.

Lemma tamper_detection_witness :
  integrity (chain ledger1)
  /\ (1 <= 1)%nat
  /\ nth_error (chain ledger1) 1 = Some block1
  /\ nth_error (chain ledger1) (1 - 1) = Some genesis0
  /\ ((forall x : @Payload printed_clock,
         @is_chain_valid printed_clock
           (mkBlockchain (overwrite (chain ledger1) 1 (set_data block1 x))
                         (difficulty ledger1))
         = false
         <-> calculate_hash (set_data block1 x) <> hash block1)
      /\ (forall x : @Payload printed_clock,
            str_payload x = str_payload (data block1) ->
            @is_chain_valid printed_clock
              (mkBlockchain (overwrite (chain ledger1) 1 (set_data block1 x))
                            (difficulty ledger1))
            = true)
      /\ (forall p : string, p <> hash genesis0 ->
            @is_chain_valid printed_clock
              (mkBlockchain
                 (overwrite (chain ledger1) 1 (set_previous_hash block1 p))
                 (difficulty ledger1))
            = false)).
Proof.
  assert (Hint : integrity (chain ledger1)).
  { exact (@reachable_integrity_all printed_clock ledger1 ledger1_reachable). }
  split; [exact Hint |].
  split; [lia |].
  split; [reflexivity |].
  split; [reflexivity |].
  apply (@tamper_detection printed_clock ledger1 1%nat block1 genesis0).
  - exact Hint.
  - lia.
  - reflexivity.
  - reflexivity.
Defined.

Lemma calculate_hash_spec_witness :
  @str_timestamp printed_clock "1730000000.0" = "1730000000.0"
  /\ @calculate_hash printed_clock genesis0
     = "8b53f106c9ff33c4012937e72fbd3bec65b0978dd4be45ca83ace3112e2cbdb9"
  /\ @calculate_hash printed_clock (set_data genesis0 "genesis block")
     = "c44b071b38d517a06c9554a07c05ea0c8c97997e58a99670e9af36f40f8b78cc".
Proof.
  split; [reflexivity |].
  destruct (@calculate_hash_spec printed_clock genesis0)
    as (_ & _ & _ & _ & _ & _ & H & _).
  destruct (H "1730000000.0" (hash genesis0) eq_refl)
    as (H0 & _ & _ & H3 & _).
  split; [exact H0 | exact H3].
Defined.

(** ** Further properties of the two classes *)

(** *** Strings *)

Lemma append_length (s t : string) :
  String.length (s ++ t)%string = (String.length s + String.length t)%nat.
Proof. induction s as [| c s IH]; cbn; [reflexivity | rewrite IH; reflexivity]. Qed.

Lemma append_cancel_head (s a b : string) :
  (s ++ a)%string = (s ++ b)%string -> a = b.
Proof.
  induction s as [| c s IH]; cbn; intros H; [exact H |].
  injection H as H. auto.
Qed.

Lemma append_cancel_tail (s : string) : forall a b : string,
  (a ++ s)%string = (b ++ s)%string -> a = b.
Proof.
  induction a as [| c a IH]; intros [| d b] H; cbn in H.
  - reflexivity.
  - exfalso. apply (f_equal String.length) in H.
    cbn in H. rewrite append_length in H. lia.
  - exfalso. apply (f_equal String.length) in H.
    cbn in H. rewrite append_length in H. lia.
  - injection H as -> H. f_equal. auto.
Qed.

Lemma prefix_length (p : string) : forall s : string,
  String.prefix p s = true -> (String.length p <= String.length s)%nat.
Proof.
  induction p as [| c p IH]; intros [| d s] H; cbn in *.
  - lia.
  - lia.
  - discriminate H.
  - destruct (ascii_dec c d); [| discriminate H].
    apply IH in H. lia.
Qed.

Lemma prefix_empty (s : string) : String.prefix "" s = true.
Proof. destruct s; reflexivity. Qed.

Lemma str_mul_zero_length (d : Z) :
  String.length (str_mul "0" d) = Z.to_nat d.
Proof.
  unfold str_mul. induction (Z.to_nat d) as [| n IH]; [reflexivity |].
  cbn [repeat String.concat]. destruct n as [| n]; [reflexivity |].
  cbn [repeat] in *. rewrite !append_length, IH. reflexivity.
Qed.

Lemma str_mul_nonpositive (s : string) (d : Z) : d <= 0 -> str_mul s d = "".
Proof.
  intros Hd. unfold str_mul.
  replace (Z.to_nat d) with 0%nat by lia. reflexivity.
Qed.

Lemma to_int_proper (n : Z) :
  Z.to_int n <> Decimal.Pos Decimal.Nil /\ Z.to_int n <> Decimal.Neg Decimal.Nil.
Proof.
  destruct n as [| p | p]; cbn; split; try discriminate;
    intros H; injection H as H;
    apply (DecimalPos.Unsigned.to_uint_nonnil p); exact H.
Qed.

Lemma str_int_inj (n m : Z) : str_int n = str_int m -> n = m.
Proof.
  unfold str_int. intros H.
  apply DecimalZ.to_int_inj.
  destruct (to_int_proper n) as [Hn1 Hn2], (to_int_proper m) as [Hm1 Hm2].
  pose proof (NilZero.isi (Z.to_int n) Hn1 Hn2) as En.
  pose proof (NilZero.isi (Z.to_int m) Hm1 Hm2) as Em.
  rewrite H in En. rewrite En in Em. injection Em as Em. exact Em.
Qed.

Section MoreTheory.

Context {clock : Clock}.

(** *** [get_latest_block] and the failure of [add_data] *)

Lemma get_latest_block_app (c : list Block) (b : Block) (d : Z) :
  get_latest_block (mkBlockchain (c ++ [b]) d) = Returns b.
Proof.
  unfold get_latest_block. cbn [chain].
  assert (H : nth_error (c ++ [b]) (List.length (c ++ [b]) - 1) = Some b).
  { rewrite length_app. cbn [List.length].
    rewrite nth_error_app2 by lia.
    replace (List.length c + 1 - 1 - List.length c)%nat with 0%nat by lia.
    reflexivity. }
  rewrite H. destruct (c ++ [b]) eqn:E; [| reflexivity].
  destruct c; discriminate E.
Qed.

Lemma get_latest_block_nonempty (self : Blockchain) :
  chain self <> [] -> exists b : Block, get_latest_block self = Returns b.
Proof.
  intros Hne. destruct self as [c d]. cbn [chain] in Hne.
  destruct (exists_last Hne) as (l & b & ->).
  exists b. apply get_latest_block_app.
Qed.

Lemma mine_never_raises fuel d : forall b : Block, mine fuel d b <> IndexError.
Proof.
  induction fuel as [| fuel IH]; intros b; cbn [mine]; [discriminate |].
  destruct (startswith _ _); [discriminate | apply IH].
Qed.

(** [get_latest_block] raises [IndexError] on an empty chain and returns
    the last block of any other. *)
Theorem get_latest_block_spec (d : Z) :
  get_latest_block (mkBlockchain [] d) = IndexError
  /\ (forall (c : list Block) (b : Block),
        get_latest_block (mkBlockchain (c ++ [b]) d) = Returns b).
Proof.
  split; [reflexivity |]. intros c b. apply get_latest_block_app.
Qed.

(** *** Ledgers built by the class itself *)

Lemma reachable_shape_all (self : Blockchain) :
  reachable self ->
  difficulty self = 2
  /\ exists (now : Timestamp) (rest : list Block),
       chain self = create_genesis_block now :: rest.
Proof.
  induction 1 as [now | self self' fuel now x Hr (Hd & t & rest & Hc) Ha].
  - split; [reflexivity |]. exists now, []. reflexivity.
  - destruct (add_data_inv _ _ _ _ _ Ha) as (latest & nb & _ & _ & ->).
    cbn [chain difficulty]. split; [exact Hd |].
    exists t, (rest ++ [nb]). rewrite Hc. reflexivity.
Qed.

Lemma seal_mined (d : Z) (b : Block) (k : nat) :
  meets_difficulty d b (Z.of_nat k) = true ->
  (forall j : nat, (j < k)%nat -> meets_difficulty d b (Z.of_nat j) = false) ->
  mined d (seal b (Z.of_nat k)).
Proof.
  intros Hm Hlow. split; [exact Hm |]. split; [cbn; lia |].
  intros n Hn. cbn in Hn.
  specialize (Hlow (Z.to_nat n) ltac:(lia)).
  rewrite Z2Nat.id in Hlow by lia. exact Hlow.
Qed.

Lemma reachable_mined_all (self : Blockchain) :
  reachable self ->
  forall (i : nat) (b : Block), (1 <= i)%nat ->
    nth_error (chain self) i = Some b -> mined 2 b.
Proof.
  induction 1 as [now | self self' fuel now x Hr IH Ha]; intros i b Hi Hb.
  - destruct i as [| [| i]]; [lia | |]; discriminate Hb.
  - destruct (reachable_shape_all self Hr) as (Hd & _).
    destruct (add_data_inv _ _ _ _ _ Ha) as (latest & nb & _ & Hp & ->).
    cbn [chain] in Hb.
    destruct (Nat.lt_ge_cases i (List.length (chain self))) as [Hlt | Hge].
    + rewrite nth_error_app1 in Hb by exact Hlt. eauto.
    + rewrite nth_error_app2 in Hb by exact Hge.
      destruct (i - List.length (chain self))%nat as [| [| k]];
        try discriminate Hb.
      injection Hb as <-.
      destruct (proof_of_work_inv _ _ _ _ Hp) as (k & _ & -> & Hm & Hlow).
      rewrite Hd in Hm, Hlow. apply seal_mined; assumption.
Qed.

(** Every ledger obtained from [Blockchain()] by calls of [add_data] has
    difficulty 2 and a chain that starts with the genesis block made at
    construction; [get_latest_block] returns on it, with the block of index
    [len(chain) - 1]. *)
Theorem reachable_shape (self : Blockchain) :
  reachable self ->
  difficulty self = 2
  /\ (exists (now : Timestamp) (rest : list Block),
        chain self = create_genesis_block now :: rest)
  /\ (exists latest : Block,
        get_latest_block self = Returns latest
        /\ index latest = Z.of_nat (List.length (chain self)) - 1).
Proof.
  intros Hr. destruct (reachable_shape_all self Hr) as (Hd & now & rest & Hc).
  split; [exact Hd |]. split; [eauto |].
  destruct (get_latest_block_nonempty self) as [latest Hl]; [congruence |].
  exists latest. split; [exact Hl |].
  apply get_latest_block_inv in Hl.
  destruct (reachable_integrity_all self Hr) as (_ & _ & Hidx).
  rewrite (Hidx _ _ Hl). rewrite Hc. cbn [List.length]. lia.
Qed.

(** In such a ledger every block but the genesis block carries its proof
    of work: its hash starts with ["00"], and its [proof] is the least
    non-negative integer for which the digest of its fields does. *)
Theorem reachable_mined (self : Blockchain) (i : nat) (b : Block) :
  reachable self -> (1 <= i)%nat -> nth_error (chain self) i = Some b ->
  startswith (hash b) "00" = true
  /\ 0 <= proof b
  /\ meets_difficulty 2 b (proof b) = true
  /\ (forall n : Z, 0 <= n < proof b -> meets_difficulty 2 b n = false).
Proof.
  intros Hr Hi Hb.
  destruct (reachable_mined_all self Hr i b Hi Hb) as (Hs & Hp & Hlow).
  destruct (reachable_integrity_all self Hr) as (_ & Hdig & _).
  pose proof (Hdig b (nth_error_In _ _ Hb)) as Hh.
  split; [exact Hs |]. split; [exact Hp |]. split; [| exact Hlow].
  unfold meets_difficulty.
  change (calculate_hash (set_proof b (proof b))) with (calculate_hash b).
  rewrite <- Hh. exact Hs.
Qed.

(** *** What [is_chain_valid] checks and what it does not *)

Lemma is_chain_valid_pairs (self : Blockchain) :
  is_chain_valid self = true <->
  (forall i : nat, (1 <= i < List.length (chain self))%nat ->
     exists current previous : Block,
       nth_error (chain self) i = Some current
       /\ nth_error (chain self) (i - 1) = Some previous
       /\ hash current = calculate_hash current
       /\ previous_hash current = hash previous).
Proof.
  unfold is_chain_valid. rewrite is_chain_valid_loop_spec.
  split; intros H i Hi; apply H.
  - apply in_seq. lia.
  - apply in_seq in Hi. lia.
Qed.

(** [is_chain_valid()] returns [True] exactly when every block but the
    first has the digest of its fields as hash and the hash of the block
    before it as [previous_hash]; nothing else is looked at. *)
Theorem is_chain_valid_iff (self : Blockchain) :
  is_chain_valid self = true <->
  (forall (i : nat) (current previous : Block), (1 <= i)%nat ->
     nth_error (chain self) i = Some current ->
     nth_error (chain self) (i - 1) = Some previous ->
     hash current = calculate_hash current
     /\ previous_hash current = hash previous).
Proof.
  rewrite is_chain_valid_pairs. split.
  - intros H i cur prev Hi Hc Hp.
    assert (Hlen : (i < List.length (chain self))%nat).
    { apply nth_error_Some. congruence. }
    destruct (H i (conj Hi Hlen)) as (c' & p' & Hc' & Hp' & Hh & Hl).
    rewrite Hc in Hc'. injection Hc' as <-.
    rewrite Hp in Hp'. injection Hp' as <-. auto.
  - intros H i Hi.
    destruct (nth_error (chain self) i) as [cur |] eqn:Hc.
    2:{ apply nth_error_None in Hc. lia. }
    destruct (nth_error (chain self) (i - 1)) as [prev |] eqn:Hp.
    2:{ apply nth_error_None in Hp. lia. }
    exists cur, prev. destruct (H i cur prev (proj1 Hi) Hc Hp). auto.
Qed.

(** Neither the proof of work nor the index is checked: a block built by
    [Block(...)] on the hash of the last block, with any index, payload and
    proof and without any search, extends a valid chain to a valid chain. *)
Theorem unmined_block_accepted (self : Blockchain) (latest : Block)
    (i : Z) (t : Timestamp) (x : Payload) (p : Z) :
  is_chain_valid self = true ->
  get_latest_block self = Returns latest ->
  is_chain_valid
    (mkBlockchain (chain self ++ [Block_init i (hash latest) t x p])
                  (difficulty self))
  = true.
Proof.
  intros Hv Hl. apply get_latest_block_inv in Hl.
  assert (Hne : (0 < List.length (chain self))%nat).
  { apply Nat.lt_le_trans with (S (List.length (chain self) - 1)); [lia |].
    apply Nat.le_succ_l. apply nth_error_Some. congruence. }
  apply is_chain_valid_pairs. cbn [chain]. rewrite length_app. cbn [List.length].
  intros j Hj.
  destruct (Nat.eq_dec j (List.length (chain self))) as [-> | Hjn].
  - exists (Block_init i (hash latest) t x p), latest.
    rewrite nth_error_app2, Nat.sub_diag by lia.
    rewrite nth_error_app1 by lia. repeat split. exact Hl.
  - destruct (proj1 (is_chain_valid_pairs self) Hv j ltac:(lia))
      as (cur & prev & Hc & Hp & Hh & Hk).
    exists cur, prev. rewrite !nth_error_app1 by lia. auto.
Qed.

(** A new [data] in block [i >= 1] of a valid chain, with the hash of the
    block recomputed, is noticed only through the block after it: the
    answer is [True] when the block is the last one, and otherwise exactly
    when the recomputed hash is the old one. *)
Theorem rehashed_tamper (self : Blockchain) (i : nat) (b : Block) (x : Payload) :
  is_chain_valid self = true -> (1 <= i)%nat ->
  nth_error (chain self) i = Some b ->
  is_chain_valid
    (mkBlockchain (overwrite (chain self) i (rehash (set_data b x)))
                  (difficulty self))
  = ((List.length (chain self) <=? S i)%nat
     || (hash b =? calculate_hash (set_data b x))%string).
Proof.
  intros Hv Hi Hb.
  assert (Hlen : (i < List.length (chain self))%nat).
  { apply nth_error_Some. congruence. }
  pose proof (proj1 (is_chain_valid_pairs self) Hv) as Hpairs.
  set (b' := rehash (set_data b x)).
  assert (Hgood :
    List.length (chain self) = S i \/ hash b = calculate_hash (set_data b x) ->
    is_chain_valid
      (mkBlockchain (overwrite (chain self) i b') (difficulty self)) = true).
  { intros Hcase. apply is_chain_valid_pairs. cbn [chain].
    rewrite length_overwrite. intros j Hj.
    destruct (Hpairs j Hj) as (cur & prev & Hc & Hp & Hh & Hk).
    destruct (Nat.eq_dec i j) as [<- | Hij].
    - rewrite nth_error_overwrite_eq by exact Hlen.
      rewrite nth_error_overwrite_neq by lia.
      exists b', prev. rewrite Hb in Hc. injection Hc as <-.
      repeat split; assumption.
    - rewrite (nth_error_overwrite_neq _ i j) by exact Hij.
      destruct (Nat.eq_dec i (j - 1)) as [Hi1 | Hi1].
      + destruct Hcase as [Hlast | Hsame]; [lia |].
        rewrite <- Hi1. rewrite nth_error_overwrite_eq by exact Hlen.
        exists cur, b'. rewrite <- Hi1, Hb in Hp. injection Hp as <-.
        repeat split; try assumption.
        rewrite Hk. exact Hsame.
      + rewrite nth_error_overwrite_neq by exact Hi1.
        exists cur, prev. repeat split; assumption. }
  destruct (Nat.leb_spec (List.length (chain self)) (S i)) as [Hle | Hgt];
    cbn [orb].
  - apply Hgood. left. lia.
  - destruct (String.eqb_spec (hash b) (calculate_hash (set_data b x)))
      as [He | Hne].
    + apply Hgood. right. exact He.
    + clear Hv Hgood.
      destruct (is_chain_valid _) eqn:Hv'; [| reflexivity].
      exfalso. apply Hne.
      destruct (proj1 (is_chain_valid_pairs _) Hv' (S i))
        as (cur' & prev' & Hc' & Hp' & _ & Hk').
      { cbn [chain]. rewrite length_overwrite. lia. }
      cbn [chain] in Hc', Hp'.
      rewrite nth_error_overwrite_neq in Hc' by lia.
      replace (S i - 1)%nat with i in Hp' by lia.
      rewrite nth_error_overwrite_eq in Hp' by exact Hlen.
      injection Hp' as <-.
      destruct (Hpairs (S i) ltac:(lia)) as (cur & prev & Hc & Hp & _ & Hk).
      replace (S i - 1)%nat with i in Hp by lia.
      rewrite Hb in Hp. injection Hp as <-.
      rewrite Hc in Hc'. injection Hc' as <-.
      rewrite <- Hk. exact Hk'.
Qed.

(** *** The difficulty at its edges *)

(** With a difficulty of 0 or less, ['0' * difficulty] is empty and the
    search stops at its first check: [proof] is 0. *)
Theorem proof_of_work_trivial (fuel : nat) (self : Blockchain) (b : Block) :
  difficulty self <= 0 ->
  proof_of_work (S fuel) self b = Returns (seal b 0).
Proof.
  intros Hd. unfold proof_of_work. rewrite mine_step.
  unfold meets_difficulty, startswith.
  rewrite str_mul_nonpositive by exact Hd. rewrite prefix_empty. reflexivity.
Qed.

(** With a difficulty above 64 no digest can pass, a digest having 64
    characters: the search never returns, whatever the block. *)
Theorem proof_of_work_hopeless (fuel : nat) (self : Blockchain) (b : Block) :
  64 < difficulty self ->
  proof_of_work fuel self b = OutOfFuel.
Proof.
  intros Hd. apply proof_of_work_starves. intros j _.
  unfold meets_difficulty, startswith.
  destruct (String.prefix _ _) eqn:Hp; [| reflexivity].
  apply prefix_length in Hp.
  rewrite str_mul_zero_length in Hp.
  unfold calculate_hash, sha256_hexdigest in Hp.
  rewrite hexdigest_length in Hp. lia.
Qed.

(** *** What the serialization keeps apart *)

(** With the other fields the same, two payloads give the same
    [block_content] exactly when [str] prints them alike, and two proofs
    exactly when they are equal. *)
Theorem block_content_separates (b : Block) (x y : Payload) (n m : Z) :
  (block_content (set_data b x) = block_content (set_data b y)
   <-> str_payload x = str_payload y)
  /\ (block_content (set_proof b n) = block_content (set_proof b m)
      <-> n = m).
Proof.
  unfold block_content. cbn [index previous_hash timestamp data proof
                             set_data set_proof]. split; split.
  - intros H. do 3 apply append_cancel_head in H.
    apply append_cancel_tail in H. exact H.
  - intros ->. reflexivity.
  - intros H. do 4 apply append_cancel_head in H.
    apply str_int_inj in H. exact H.
  - intros ->. reflexivity.
Qed.

End MoreTheory.

(** ** The console *)

Lemma progress_lines_flat (k : nat) :
  flat_map
    (fun j : nat =>
       if ((0 + 1 + Z.of_nat j) mod 1000 =? 0)%Z
       then [Printed ("Still mining... tried proof: "
                      ++ str_int (0 + 1 + Z.of_nat j))%string]
       else [])
    (seq 0 k)
  = progress_lines (Z.of_nat k).
Proof.
  unfold progress_lines. induction k as [| k IH]; [reflexivity |].
  rewrite seq_S, flat_map_app, IH. cbn [flat_map Nat.add]. rewrite app_nil_r.
  destruct (Z.eqb_spec ((0 + 1 + Z.of_nat k) mod 1000) 0) as [Hz | Hnz].
  - replace (Z.to_nat (Z.of_nat (S k) / 1000))
      with (S (Z.to_nat (Z.of_nat k / 1000))).
    2:{ pose proof (Z.div_mod (Z.of_nat (S k)) 1000 ltac:(lia)) as H1.
        pose proof (Z.div_mod (Z.of_nat k) 1000 ltac:(lia)) as H2.
        pose proof (Z.mod_pos_bound (Z.of_nat k) 1000 ltac:(lia)) as H3.
        replace (0 + 1 + Z.of_nat k) with (Z.of_nat (S k)) in Hz by lia.
        rewrite Hz in H1.
        assert (Z.of_nat (S k) / 1000 = Z.of_nat k / 1000 + 1) by lia.
        assert (0 <= Z.of_nat k / 1000) by (apply Z.div_pos; lia).
        lia. }
    assert (E : 0 + 1 + Z.of_nat k
                = 1000 * Z.of_nat (1 + Z.to_nat (Z.of_nat k / 1000))).
    { pose proof (Z.div_mod (Z.of_nat k) 1000 ltac:(lia)) as H2.
      pose proof (Z.mod_pos_bound (Z.of_nat k) 1000 ltac:(lia)) as H3.
      pose proof (Z.div_mod (0 + 1 + Z.of_nat k) 1000 ltac:(lia)) as H1.
      rewrite Hz in H1.
      assert (0 <= Z.of_nat k / 1000) by (apply Z.div_pos; lia).
      assert ((0 + 1 + Z.of_nat k) / 1000 = Z.of_nat k / 1000 + 1) by lia.
      rewrite Nat2Z.inj_add, Z2Nat.id by lia. lia. }
    rewrite seq_S, map_app. cbn [map]. rewrite E. reflexivity.
  - rewrite app_nil_r.
    replace (Z.of_nat (S k) / 1000) with (Z.of_nat k / 1000); [reflexivity |].
    pose proof (Z.div_mod (Z.of_nat k) 1000 ltac:(lia)) as H2.
    pose proof (Z.mod_pos_bound (Z.of_nat k) 1000 ltac:(lia)) as H3.
    pose proof (Z.div_mod (Z.of_nat (S k)) 1000 ltac:(lia)) as H1.
    pose proof (Z.mod_pos_bound (Z.of_nat (S k)) 1000 ltac:(lia)) as H4.
    replace (0 + 1 + Z.of_nat k) with (Z.of_nat (S k)) in Hnz by lia.
    lia.
Qed.

Lemma flat_map_shift {A : Type} (f : nat -> list A) (k : nat) :
  flat_map f (seq 1 k) = flat_map (fun j : nat => f (S j)) (seq 0 k).
Proof.
  rewrite <- seq_shift. induction (seq 0 k) as [| j l IH]; cbn; congruence.
Qed.

Section ConsoleTheory.

Context {clock : Clock}.

(** *** The lines of the search *)

Lemma mine_io_hash_irrelevant fuel d i p t x n h1 h2 :
  mine_io fuel d (mkBlock i p t x n h1) = mine_io fuel d (mkBlock i p t x n h2).
Proof. destruct fuel; reflexivity. Qed.

Lemma mine_io_step fuel d (b : Block) (n : Z) :
  mine_io (S fuel) d (set_proof b n) =
  if meets_difficulty d b n then ([], Returns (seal b n))
  else
    let out :=
      if ((n + 1) mod 1000 =? 0)%Z
      then [Printed ("Still mining... tried proof: " ++ str_int (n + 1))%string]
      else [] in
    (out ++ fst (mine_io fuel d (set_proof b (n + 1))),
     snd (mine_io fuel d (set_proof b (n + 1)))).
Proof.
  cbn [mine_io]. unfold meets_difficulty.
  change (hash (set_hash (set_proof b n) (calculate_hash (set_proof b n))))
    with (calculate_hash (set_proof b n)).
  destruct (startswith (calculate_hash (set_proof b n)) (str_mul "0" d));
    [reflexivity |].
  cbn [proof set_proof set_hash index previous_hash timestamp data hash].
  assert (E : mine_io fuel d
                (set_proof
                   (set_hash (set_proof b n) (calculate_hash (set_proof b n)))
                   (n + 1))
              = mine_io fuel d (set_proof b (n + 1))).
  { apply mine_io_hash_irrelevant. }
  rewrite E. destruct (mine_io fuel d (set_proof b (n + 1))). reflexivity.
Qed.

Lemma mine_io_snd fuel d (b : Block) : forall n : Z,
  snd (mine_io fuel d (set_proof b n)) = mine fuel d (set_proof b n).
Proof.
  induction fuel as [| fuel IH]; intros n; [reflexivity |].
  rewrite mine_io_step, mine_step.
  destruct (meets_difficulty d b n); [reflexivity |]. cbn [snd]. apply IH.
Qed.

Lemma mine_io_fst d (b : Block) : forall (k fuel : nat) (n : Z),
  (k < fuel)%nat ->
  meets_difficulty d b (n + Z.of_nat k) = true ->
  (forall j : nat, (j < k)%nat ->
     meets_difficulty d b (n + Z.of_nat j) = false) ->
  fst (mine_io fuel d (set_proof b n)) =
  flat_map
    (fun j : nat =>
       if ((n + 1 + Z.of_nat j) mod 1000 =? 0)%Z
       then [Printed ("Still mining... tried proof: "
                      ++ str_int (n + 1 + Z.of_nat j))%string]
       else [])
    (seq 0 k).
Proof.
  induction k as [| k IH]; intros fuel n Hf Hm Hlow;
    (destruct fuel as [| fuel]; [lia |]); rewrite mine_io_step.
  - rewrite Z.add_0_r in Hm. rewrite Hm. reflexivity.
  - specialize (Hlow 0%nat ltac:(lia)) as H0. rewrite Z.add_0_r in H0.
    rewrite H0. cbn [fst]. cbn [seq flat_map].
    rewrite Z.add_0_r. f_equal.
    rewrite (IH fuel (n + 1)).
    + rewrite flat_map_shift.
      apply flat_map_ext. intros j.
      replace (n + 1 + 1 + Z.of_nat j) with (n + 1 + Z.of_nat (S j)) by lia.
      reflexivity.
    + lia.
    + replace (n + 1 + Z.of_nat k) with (n + Z.of_nat (S k)) by lia. exact Hm.
    + intros j Hj. specialize (Hlow (S j) ltac:(lia)).
      replace (n + 1 + Z.of_nat j) with (n + Z.of_nat (S j)) by lia. exact Hlow.
Qed.

Lemma proof_of_work_io_snd fuel (self : Blockchain) (b : Block) :
  snd (proof_of_work_io fuel self b) = proof_of_work fuel self b.
Proof. apply mine_io_snd. Qed.

Lemma proof_of_work_io_fst fuel (self : Blockchain) (b b' : Block) :
  proof_of_work fuel self b = Returns b' ->
  fst (proof_of_work_io fuel self b) = progress_lines (proof b').
Proof.
  intros H.
  destruct (proof_of_work_inv _ _ _ _ H) as (k & Hk & -> & Hm & Hlow).
  unfold proof_of_work_io.
  rewrite (mine_io_fst (difficulty self) b k fuel 0 Hk);
    [| rewrite Z.add_0_l; exact Hm
     | intros j Hj; rewrite Z.add_0_l; apply Hlow; exact Hj].
  apply progress_lines_flat.
Qed.

(** The search of [proof_of_work] prints one progress line for every
    multiple of 1000 from 1000 up to the proof it ends with, in increasing
    order, and nothing else. *)
Theorem proof_of_work_progress (fuel : nat) (self : Blockchain) (b b' : Block) :
  snd (proof_of_work_io fuel self b) = Returns b' ->
  proof_of_work fuel self b = Returns b'
  /\ fst (proof_of_work_io fuel self b)
     = map (fun m : nat =>
              Printed ("Still mining... tried proof: "
                       ++ str_int (1000 * Z.of_nat m))%string)
           (seq 1 (Z.to_nat (proof b' / 1000))).
Proof.
  rewrite proof_of_work_io_snd. intros H. split; [exact H |].
  apply proof_of_work_io_fst. exact H.
Qed.

(** *** The lines of [add_data] *)

Lemma add_data_io_snd fuel now x (self : Blockchain) :
  snd (add_data_io fuel now x self) = add_data fuel now x self.
Proof.
  unfold add_data_io, add_data.
  destruct (get_latest_block self) as [latest | |]; try reflexivity.
  rewrite <- proof_of_work_io_snd.
  destruct (proof_of_work_io fuel self _) as [out [nb | |]]; reflexivity.
Qed.

Lemma add_data_io_fst fuel now x (self self' : Blockchain) :
  add_data fuel now x self = Returns self' ->
  exists new_block : Block,
    chain self' = chain self ++ [new_block]
    /\ fst (add_data_io fuel now x self)
       = progress_lines (proof new_block)
         ++ [Printed ("Block " ++ str_int (Z.of_nat (List.length (chain self)))
                      ++ " mined with proof " ++ str_int (proof new_block)
                      ++ "!")%string].
Proof.
  intros H. destruct (add_data_inv _ _ _ _ _ H) as (latest & nb & Hl & Hp & ->).
  exists nb. split; [reflexivity |].
  pose proof (proof_of_work_io_fst _ _ _ _ Hp) as Hfst.
  pose proof (proof_of_work_io_snd fuel self
                (Block_init (Z.of_nat (List.length (chain self))) (hash latest)
                            now x 0)) as Hsnd.
  rewrite Hp in Hsnd.
  destruct (proof_of_work_inv _ _ _ _ Hp) as (k & _ & Hnb & _ & _).
  unfold add_data_io. rewrite Hl.
  destruct (proof_of_work_io fuel self _) as [out r].
  cbn [fst snd] in Hfst, Hsnd. subst out r. cbn [fst].
  rewrite Hnb. reflexivity.
Qed.

(** [add_data], when it returns, has printed the progress lines of the
    search and then one line with the index of the new block, which is the
    former length of the chain, and its proof. *)
Theorem add_data_lines (fuel : nat) (now : Timestamp) (x : Payload)
    (self self' : Blockchain) :
  snd (add_data_io fuel now x self) = Returns self' ->
  add_data fuel now x self = Returns self'
  /\ exists new_block : Block,
       chain self' = chain self ++ [new_block]
       /\ fst (add_data_io fuel now x self)
          = progress_lines (proof new_block)
            ++ [Printed ("Block "
                         ++ str_int (Z.of_nat (List.length (chain self)))
                         ++ " mined with proof " ++ str_int (proof new_block)
                         ++ "!")%string].
Proof.
  rewrite add_data_io_snd. intros H. split; [exact H |].
  apply add_data_io_fst. exact H.
Qed.

(** *** The diagnostic of [is_chain_valid] *)

Lemma is_chain_valid_loop_io_snd (c : list Block) (range : list nat) :
  snd (is_chain_valid_loop_io c range) = is_chain_valid_loop c range.
Proof.
  induction range as [| i range IH]; cbn [is_chain_valid_loop_io
                                          is_chain_valid_loop]; [reflexivity |].
  destruct (nth_error c i); [| reflexivity].
  destruct (nth_error c (i - 1)); [| reflexivity].
  destruct (negb _); [reflexivity |].
  destruct (negb _); [reflexivity | exact IH].
Qed.

Lemma is_chain_valid_loop_io_quiet (c : list Block) (range : list nat) :
  is_chain_valid_loop c range = true ->
  fst (is_chain_valid_loop_io c range) = [].
Proof.
  induction range as [| i range IH]; cbn [is_chain_valid_loop_io
                                          is_chain_valid_loop]; [reflexivity |].
  destruct (nth_error c i); [| discriminate].
  destruct (nth_error c (i - 1)); [| discriminate].
  destruct (negb _); [discriminate |].
  destruct (negb _); [discriminate | exact IH].
Qed.

Lemma is_chain_valid_loop_io_first (c : list Block) : forall (n a : nat),
  (1 <= a)%nat -> (a + n <= List.length c)%nat ->
  is_chain_valid_loop c (seq a n) = false ->
  exists (i : nat) (current previous : Block),
    (a <= i < a + n)%nat
    /\ nth_error c i = Some current
    /\ nth_error c (i - 1) = Some previous
    /\ (forall j : nat, (a <= j < i)%nat -> block_passes c j)
    /\ (hash current <> calculate_hash current
        \/ previous_hash current <> hash previous)
    /\ fst (is_chain_valid_loop_io c (seq a n)) = [diagnostic current].
Proof.
  induction n as [| n IH]; intros a Ha Hlen Hv; [discriminate Hv |].
  cbn [seq is_chain_valid_loop is_chain_valid_loop_io] in *.
  destruct (nth_error c a) as [cur |] eqn:Hc.
  2:{ apply nth_error_None in Hc. lia. }
  destruct (nth_error c (a - 1)) as [prev |] eqn:Hp.
  2:{ apply nth_error_None in Hp. lia. }
  unfold diagnostic.
  destruct (String.eqb_spec (hash cur) (calculate_hash cur)) as [Hh | Hh];
    cbn [negb] in *.
  2:{ exists a, cur, prev. rewrite Hc, Hp.
      destruct (String.eqb_spec (hash cur) (calculate_hash cur));
        [contradiction |].
      repeat split; auto; lia. }
  destruct (String.eqb_spec (previous_hash cur) (hash prev)) as [Hl | Hl];
    cbn [negb] in *.
  2:{ exists a, cur, prev. rewrite Hc, Hp.
      destruct (String.eqb_spec (hash cur) (calculate_hash cur));
        [| contradiction].
      repeat split; auto; lia. }
  destruct (IH (S a) ltac:(lia) ltac:(lia) Hv)
    as (i & cur' & prev' & Hi & Hc' & Hp' & Hpass & Hbad & Hout).
  exists i, cur', prev'. repeat split; auto; try lia.
  intros j Hj. destruct (Nat.eq_dec j a) as [-> | Hja].
  - exists cur, prev. auto.
  - apply Hpass. lia.
Qed.

(** [is_chain_valid()] prints nothing when it returns [True].  When it
    returns [False] it prints one line, about the first block that fails a
    check: the line names the [index] field of that block, and says
    ["hash mismatch!"] whenever the digest check fails, the other message
    only when the digest check passes and the link check fails. *)
Theorem is_chain_valid_diagnostic (self : Blockchain) :
  snd (is_chain_valid_io self) = is_chain_valid self
  /\ (is_chain_valid self = true -> fst (is_chain_valid_io self) = [])
  /\ (is_chain_valid self = false ->
      exists (i : nat) (current previous : Block),
        (1 <= i)%nat
        /\ nth_error (chain self) i = Some current
        /\ nth_error (chain self) (i - 1) = Some previous
        /\ (forall j : nat, (1 <= j < i)%nat -> block_passes (chain self) j)
        /\ (hash current <> calculate_hash current
            \/ previous_hash current <> hash previous)
        /\ fst (is_chain_valid_io self)
           = [if (hash current =? calculate_hash current)%string
              then Printed ("Block " ++ str_int (index current)
                            ++ " previous hash doesn't match!")%string
              else Printed ("Block " ++ str_int (index current)
                            ++ " hash mismatch!")%string]).
Proof.
  unfold is_chain_valid_io, is_chain_valid.
  split; [apply is_chain_valid_loop_io_snd |].
  split; [apply is_chain_valid_loop_io_quiet |].
  intros Hv.
  destruct (chain self) as [| g rest] eqn:Hc; [discriminate Hv |].
  destruct (is_chain_valid_loop_io_first (g :: rest)
              (List.length (g :: rest) - 1) 1 ltac:(lia)
              ltac:(cbn [List.length]; lia) Hv)
    as (i & cur & prev & Hi & Hcur & Hprev & Hpass & Hbad & Hout).
  exists i, cur, prev. repeat split; auto. lia.
Qed.

End ConsoleTheory.

(** *** Lines that a test on events never selects *)

Section Unselected.

Context {clock : Clock}.

Variable p : event -> bool.
Hypothesis p_still :
  forall s : string, p (Printed ("Still mining... tried proof: " ++ s)%string) = false.
Hypothesis p_block :
  forall s : string, p (Printed ("Block " ++ s)%string) = false.
Hypothesis p_newline :
  forall s : string, p (Printed (newline ++ s)%string) = false.
Hypothesis p_indent :
  forall s : string, p (Printed ("  " ++ s)%string) = false.

Lemma mine_io_unselected fuel d : forall b : Block,
  filter p (fst (mine_io fuel d b)) = [].
Proof.
  induction fuel as [| fuel IH]; intros b; cbn [mine_io]; [reflexivity |].
  destruct (startswith _ _); [reflexivity |].
  destruct (mine_io fuel d _) as [rest r] eqn:E. cbn [fst].
  rewrite filter_app. specialize (IH (set_proof
    (set_hash b (calculate_hash b))
    (proof (set_hash b (calculate_hash b)) + 1))).
  rewrite E in IH. cbn [fst] in IH. rewrite IH, app_nil_r.
  destruct (_ =? 0)%Z; [| reflexivity].
  cbn [filter]. rewrite p_still. reflexivity.
Qed.

Lemma add_data_io_unselected fuel now x (self : Blockchain) :
  filter p (fst (add_data_io fuel now x self)) = [].
Proof.
  unfold add_data_io, proof_of_work_io.
  destruct (get_latest_block self) as [latest | |]; try reflexivity.
  pose proof (mine_io_unselected fuel (difficulty self)
    (set_proof (Block_init (Z.of_nat (List.length (chain self)))
                           (hash latest) now x 0) 0)) as H.
  destruct (mine_io fuel (difficulty self) _) as [out [nb | |]];
    cbn [fst] in *; try exact H.
  rewrite filter_app, H. cbn [filter app]. rewrite p_block. reflexivity.
Qed.

Lemma display_unselected (self : Blockchain) : filter p (display self) = [].
Proof.
  unfold display. induction (chain self) as [| b c IH]; [reflexivity |].
  cbn [flat_map]. rewrite filter_app, IH, app_nil_r.
  assert (H1 : p (Printed ("  Timestamp: " ++ str_timestamp (timestamp b))%string)
               = false)
    by exact (p_indent ("Timestamp: " ++ str_timestamp (timestamp b))).
  assert (H2 : p (Printed ("  Data: " ++ str_payload (data b))%string) = false)
    by exact (p_indent ("Data: " ++ str_payload (data b))).
  assert (H3 : p (Printed ("  Proof: " ++ str_int (proof b))%string) = false)
    by exact (p_indent ("Proof: " ++ str_int (proof b))).
  assert (H4 : p (Printed ("  Previous Hash: " ++ previous_hash b)%string)
               = false)
    by exact (p_indent ("Previous Hash: " ++ previous_hash b)).
  assert (H5 : p (Printed ("  Hash: " ++ hash b)%string) = false)
    by exact (p_indent ("Hash: " ++ hash b)).
  unfold display_block. cbn [filter].
  rewrite p_newline, H1, H2, H3, H4, H5. reflexivity.
Qed.

End Unselected.

(** *** The menu loop *)

Section MenuTheory.

Context {clock : Clock}.

Variable strip : string -> string.

Lemma validate_reachable (self : Blockchain) :
  reachable self ->
  validate self = [Printed "Everything looks good! The blockchain is valid."].
Proof.
  intros Hr. unfold validate, is_chain_valid_io.
  destruct (reachable_integrity_all self Hr) as (Hlink & Hdig & _).
  pose proof (integrity_valid self Hlink Hdig) as Hv. unfold is_chain_valid in Hv.
  pose proof (is_chain_valid_loop_io_snd (chain self)
                (seq 1 (List.length (chain self) - 1))) as Hs.
  pose proof (is_chain_valid_loop_io_quiet _ _ Hv) as Hq.
  destruct (is_chain_valid_loop_io _ _) as [out ok]. cbn [fst snd] in *.
  subst out. rewrite Hs, Hv. reflexivity.
Qed.

Lemma add_data_never_raises_on_reachable fuel now x (self : Blockchain) :
  reachable self -> add_data fuel now x self <> IndexError.
Proof.
  intros Hr H. destruct (reachable_shape_all self Hr) as (_ & t & rest & Hc).
  destruct (get_latest_block_nonempty self) as [latest Hl]; [congruence |].
  unfold add_data in H. rewrite Hl in H. unfold proof_of_work in H.
  destruct (mine fuel (difficulty self) _) eqn:Hm; try discriminate H.
  exact (mine_never_raises _ _ _ Hm).
Qed.

Lemma add_data_stores fuel now x (self self' : Blockchain) :
  add_data fuel now x self = Returns self' ->
  map data (chain self') = map data (chain self) ++ [x]
  /\ List.length (chain self') = S (List.length (chain self)).
Proof.
  intros H. destruct (add_data_inv _ _ _ _ _ H) as (latest & nb & _ & Hp & ->).
  destruct (proof_of_work_inv _ _ _ _ Hp) as (k & _ & -> & _ & _).
  cbn [chain]. rewrite map_app, length_app. cbn. split; [reflexivity | lia].
Qed.

Lemma menu_loop_facts (fuel : nat) (times : nat -> Timestamp) :
  forall (n : nat) (stdin : list string), (List.length stdin <= n)%nat ->
  forall (tick : nat) (blockchain final : Blockchain) (out : list event)
         (e : ending),
    reachable blockchain ->
    menu_loop strip fuel times tick blockchain stdin = (out, final, e) ->
    reachable final
    /\ e <> RaisedIndexError
    /\ filter is_warning out = []
    /\ (List.length (filter is_added out) + List.length (chain blockchain)
        = List.length (chain final))%nat
    /\ ((forall line : string, In line stdin -> strip line <> "4") ->
        e <> Exited)
    /\ ((forall line : string, In line stdin -> strip line <> "1") ->
        final = blockchain)
    /\ (e = Exited \/ e = RaisedEOFError ->
        map data (chain final)
        = map data (chain blockchain) ++ payloads strip stdin).
Proof.
  induction n as [| n IH]; intros stdin Hn tick bc final out e Hr H.
  - destruct stdin; [| cbn in Hn; lia]. cbn [menu_loop] in H.
    injection H as <- <- <-. repeat split; auto; try discriminate.
    cbn [payloads]. rewrite app_nil_r. reflexivity.
  - destruct stdin as [| line rest].
    { cbn [menu_loop] in H. injection H as <- <- <-.
      repeat split; auto; try discriminate.
      cbn [payloads]. rewrite app_nil_r. reflexivity. }
    cbn [List.length] in Hn. cbn [menu_loop payloads] in H |- *.
    destruct (String.eqb_spec (strip line) "1") as [E1 | E1].
    { destruct rest as [| x rest'].
      { injection H as <- <- <-.
        split; [exact Hr |]. split; [discriminate |].
        split; [reflexivity |]. split; [reflexivity |].
        split; [discriminate |].
        split.
        { intros Hno. exfalso. apply (Hno line); [left; reflexivity | exact E1]. }
        intros _. rewrite app_nil_r. reflexivity. }
      pose proof (add_data_io_snd fuel (times tick) x bc) as Hsnd.
      pose proof (add_data_io_unselected is_warning
                    ltac:(reflexivity) ltac:(reflexivity)
                    fuel (times tick) x bc) as Hw.
      pose proof (add_data_io_unselected is_added
                    ltac:(reflexivity) ltac:(reflexivity)
                    fuel (times tick) x bc) as Ha.
      destruct (add_data_io fuel (times tick) x bc) as [log r].
      cbn [fst snd] in Hsnd, Hw, Ha.
      destruct r as [bc' | |].
      - destruct (menu_loop strip fuel times (S tick) bc' rest')
          as [[after final'] e'] eqn:Hrec.
        injection H as <- <- <-.
        assert (Hr' : reachable bc').
        { apply (reachable_add_data bc bc' fuel (times tick) x Hr).
          symmetry. exact Hsnd. }
        destruct (add_data_stores _ _ _ _ _ (eq_sym Hsnd)) as (Hdata & Hlen).
        cbn [List.length] in Hn.
        destruct (IH rest' ltac:(lia) _ _ _ _ _ Hr' Hrec)
          as (F1 & F2 & F3 & F4 & F5 & F6 & F7).
        split; [exact F1 |]. split; [exact F2 |].
        split.
        { cbn. rewrite filter_app, Hw. cbn. exact F3. }
        split.
        { cbn. rewrite filter_app, length_app, Ha. cbn. lia. }
        split.
        { intros Hno. apply F5. intros l Hl. apply Hno. right. right. exact Hl. }
        split.
        { intros Hno. exfalso. apply (Hno line); [left; reflexivity | exact E1]. }
        intros He. rewrite (F7 He), Hdata, <- app_assoc. reflexivity.
      - exfalso.
        apply (add_data_never_raises_on_reachable fuel (times tick) x bc Hr).
        symmetry. exact Hsnd.
      - injection H as <- <- <-.
        split; [exact Hr |]. split; [discriminate |].
        split.
        { cbn. exact Hw. }
        split.
        { cbn. rewrite Ha. reflexivity. }
        split; [discriminate |].
        split.
        { intros Hno. exfalso. apply (Hno line); [left; reflexivity | exact E1]. }
        intros [He | He]; discriminate He. }
    assert (Hrest : forall (middle : list event),
      filter is_warning middle = [] -> filter is_added middle = [] ->
      strip line <> "4" ->
      forall after final' e',
        menu_loop strip fuel times tick bc rest = (after, final', e') ->
        (menu ++ middle ++ after, final', e') = (out, final, e) ->
        reachable final
        /\ e <> RaisedIndexError
        /\ filter is_warning out = []
        /\ (List.length (filter is_added out) + List.length (chain bc)
            = List.length (chain final))%nat
        /\ ((forall l : string, In l (line :: rest) -> strip l <> "4") ->
            e <> Exited)
        /\ ((forall l : string, In l (line :: rest) -> strip l <> "1") ->
            final = bc)
        /\ (e = Exited \/ e = RaisedEOFError ->
            map data (chain final)
            = map data (chain bc)
              ++ (if (strip line =? "4")%string then []
                  else payloads strip rest))).
    { intros middle Mw Ma N4 after final' e' Hrec Heq.
      injection Heq as <- <- <-.
      destruct (IH rest ltac:(lia) _ _ _ _ _ Hr Hrec)
        as (F1 & F2 & F3 & F4 & F5 & F6 & F7).
      split; [exact F1 |]. split; [exact F2 |].
      split.
      { cbn. rewrite filter_app, Mw. exact F3. }
      split.
      { cbn. rewrite filter_app, length_app, Ma. exact F4. }
      split.
      { intros Hno. apply F5. intros l Hl. apply Hno. right. exact Hl. }
      split.
      { intros Hno. apply F6. intros l Hl. apply Hno. right. exact Hl. }
      destruct (String.eqb_spec (strip line) "4"); [contradiction | exact F7]. }
    destruct (String.eqb_spec (strip line) "2") as [E2 | E2].
    { destruct (menu_loop strip fuel times tick bc rest)
        as [[after final'] e'] eqn:Hrec.
      apply (Hrest (display bc)) with (after := after) (final' := final')
                                      (e' := e'); auto.
      - apply display_unselected; reflexivity.
      - apply display_unselected; reflexivity.
      - rewrite E2. discriminate. }
    destruct (String.eqb_spec (strip line) "3") as [E3 | E3].
    { destruct (menu_loop strip fuel times tick bc rest)
        as [[after final'] e'] eqn:Hrec.
      apply (Hrest (validate bc)) with (after := after) (final' := final')
                                       (e' := e'); auto.
      - rewrite (validate_reachable bc Hr). reflexivity.
      - rewrite (validate_reachable bc Hr). reflexivity.
      - rewrite E3. discriminate. }
    destruct (String.eqb_spec (strip line) "4") as [E4 | E4].
    { injection H as <- <- <-.
      split; [exact Hr |]. split; [discriminate |].
      split; [reflexivity |]. split; [reflexivity |].
      split.
      { intros Hno. exfalso. apply (Hno line); [left; reflexivity | exact E4]. }
      split; [reflexivity |].
      intros _. rewrite app_nil_r. reflexivity. }
    destruct (menu_loop strip fuel times tick bc rest)
      as [[after final'] e'] eqn:Hrec.
    pose proof (Hrest [Printed "Invalid choice, please select 1, 2, 3, or 4."]
                  eq_refl eq_refl E4 after final' e' eq_refl H) as F.
    destruct (String.eqb_spec (strip line) "4"); [contradiction | exact F].
Qed.

Lemma main_facts (fuel : nat) (times : nat -> Timestamp) (stdin : list string) :
  let r := main strip fuel times stdin in
  reachable (session_ledger r)
  /\ session_end r <> RaisedIndexError
  /\ filter is_warning (session_out r) = []
  /\ (List.length (filter is_added (session_out r)) + 1
      = List.length (chain (session_ledger r)))%nat
  /\ ((forall line : string, In line stdin -> strip line <> "4") ->
      session_end r <> Exited)
  /\ ((forall line : string, In line stdin -> strip line <> "1") ->
      session_ledger r = Blockchain_init (times 0%nat))
  /\ (session_end r = Exited \/ session_end r = RaisedEOFError ->
      map data (chain (session_ledger r))
      = text "Genesis Block" :: payloads strip stdin).
Proof.
  unfold main, session_out, session_ledger, session_end.
  destruct (menu_loop strip fuel times 1 (Blockchain_init (times 0%nat)) stdin)
    as [[out final] e] eqn:H.
  cbn [fst snd].
  exact (menu_loop_facts fuel times (List.length stdin) stdin (le_n _) 1%nat
           (Blockchain_init (times 0%nat)) final out e
           (reachable_init (times 0%nat)) H).
Qed.

(** Whatever is typed, the ledger the program holds when it stops is one
    built by [Blockchain()] and [add_data] alone: it satisfies
    [is_chain_valid()], and the program never stops on an [IndexError]. *)
Theorem session_ledger_genuine (fuel : nat) (times : nat -> Timestamp)
    (stdin : list string) :
  reachable (session_ledger (main strip fuel times stdin))
  /\ is_chain_valid (session_ledger (main strip fuel times stdin)) = true
  /\ session_end (main strip fuel times stdin) <> RaisedIndexError.
Proof.
  destruct (main_facts fuel times stdin) as (Hr & He & _).
  split; [exact Hr |]. split; [| exact He].
  destruct (reachable_integrity_all _ Hr) as (Hlink & Hdig & _).
  apply integrity_valid; assumption.
Qed.

(** Whatever is typed, choice 3 never answers with the warning. *)
Theorem session_never_warns (fuel : nat) (times : nat -> Timestamp)
    (stdin : list string) :
  ~ In (Printed "Warning! Blockchain integrity is compromised!")
       (session_out (main strip fuel times stdin)).
Proof.
  destruct (main_facts fuel times stdin) as (_ & _ & Hw & _).
  intros Hin.
  assert (H : In (Printed "Warning! Blockchain integrity is compromised!")
                 (filter is_warning (session_out (main strip fuel times stdin)))).
  { apply filter_In. split; [exact Hin | reflexivity]. }
  rewrite Hw in H. exact H.
Qed.

(** The chain holds the genesis block and one block for every line
    ["New block successfully added!"] that was printed. *)
Theorem session_blocks_counted (fuel : nat) (times : nat -> Timestamp)
    (stdin : list string) :
  List.length (chain (session_ledger (main strip fuel times stdin)))
  = S (List.length
         (filter is_added (session_out (main strip fuel times stdin)))).
Proof.
  destruct (main_facts fuel times stdin) as (_ & _ & _ & Hc & _). lia.
Qed.

(** The loop is left by the [break] only on a line that strips to ["4"]. *)
Theorem session_exit_needs_choice_4 (fuel : nat) (times : nat -> Timestamp)
    (stdin : list string) :
  (forall line : string, In line stdin -> strip line <> "4") ->
  session_end (main strip fuel times stdin) <> Exited.
Proof.
  destruct (main_facts fuel times stdin) as (_ & _ & _ & _ & H & _). exact H.
Qed.

(** Showing the chain, checking it and wrong choices leave the ledger as
    [Blockchain()] made it: without a line that strips to ["1"] nothing is
    added. *)
Theorem session_without_choice_1 (fuel : nat) (times : nat -> Timestamp)
    (stdin : list string) :
  (forall line : string, In line stdin -> strip line <> "1") ->
  session_ledger (main strip fuel times stdin) = Blockchain_init (times 0%nat).
Proof.
  destruct (main_facts fuel times stdin) as (_ & _ & _ & _ & _ & H & _). exact H.
Qed.

(** When the program stops by choice 4 or at the end of the input, the
    payloads of the chain are the genesis label and then, in order and as
    they were typed (not stripped), the lines that followed a choice 1. *)
Theorem session_payloads (fuel : nat) (times : nat -> Timestamp)
    (stdin : list string) :
  session_end (main strip fuel times stdin) = Exited
  \/ session_end (main strip fuel times stdin) = RaisedEOFError ->
  map data (chain (session_ledger (main strip fuel times stdin)))
  = text "Genesis Block" :: payloads strip stdin.
Proof.
  destruct (main_facts fuel times stdin) as (_ & _ & _ & _ & _ & _ & H). exact H.
Qed.

End MenuTheory.

(** ** The further properties on concrete runs *)

Example session_result :
  session_ledger (@main printed_clock strip_ascii 20 session_times session_stdin)
  = ledger1
  /\ session_end (@main printed_clock strip_ascii 20 session_times session_stdin)
     = Exited.
Proof. split; vm_compute; reflexivity. Qed.

Example unmined7_has_no_proof_of_work :
  startswith (hash unmined7) "00" = false.
Proof. vm_compute. reflexivity. Qed.

Example tampered_diagnostic :
  @is_chain_valid_io printed_clock ledger1_tampered
  = ([Printed "Block 1 hash mismatch!"], false).
Proof. vm_compute. reflexivity. Qed.

Lemma reachable_shape_witness :
  @reachable printed_clock ledger1
  /\ (difficulty ledger1 = 2
      /\ (exists (now : @Timestamp printed_clock) (rest : list Block),
            chain ledger1 = create_genesis_block now :: rest)
      /\ (exists latest : @Block printed_clock,
            get_latest_block ledger1 = Returns latest
            /\ index latest = Z.of_nat (List.length (chain ledger1)) - 1)).
Proof.
  split; [exact ledger1_reachable |].
  apply (@reachable_shape printed_clock ledger1). exact ledger1_reachable.
Defined.

Lemma reachable_mined_witness :
  @reachable printed_clock ledger1
  /\ (1 <= 1)%nat
  /\ nth_error (chain ledger1) 1 = Some block1
  /\ (startswith (hash block1) "00" = true
      /\ 0 <= proof block1
      /\ meets_difficulty 2 block1 (proof block1) = true
      /\ (forall n : Z, 0 <= n < proof block1 ->
            meets_difficulty 2 block1 n = false)).
Proof.
  split; [exact ledger1_reachable |].
  split; [lia |].
  split; [reflexivity |].
  apply (@reachable_mined printed_clock ledger1 1%nat block1).
  - exact ledger1_reachable.
  - lia.
  - reflexivity.
Defined.

Lemma unmined_block_accepted_witness :
  @is_chain_valid printed_clock ledger0 = true
  /\ @get_latest_block printed_clock ledger0 = Returns genesis0
  /\ @is_chain_valid printed_clock
       (mkBlockchain
          (chain ledger0
           ++ [@Block_init printed_clock 7 (hash genesis0) "1730000002.25"
                 "forged" 0])
          (difficulty ledger0))
     = true.
Proof.
  split; [reflexivity |].
  split; [reflexivity |].
  apply (@unmined_block_accepted printed_clock ledger0 genesis0 7
           "1730000002.25" "forged" 0).
  - reflexivity.
  - reflexivity.
Defined.

Lemma rehashed_tamper_witness :
  @is_chain_valid printed_clock ledger2 = true
  /\ (1 <= 1)%nat
  /\ nth_error (chain ledger2) 1 = Some block1
  /\ @is_chain_valid printed_clock
       (mkBlockchain
          (overwrite (chain ledger2) 1 (rehash (set_data block1 "tampered")))
          (difficulty ledger2))
     = ((List.length (chain ledger2) <=? 2)%nat
        || (hash block1 =? calculate_hash (set_data block1 "tampered"))%string).
Proof.
  split; [vm_compute; reflexivity |].
  split; [lia |].
  split; [reflexivity |].
  apply (@rehashed_tamper printed_clock ledger2 1%nat block1 "tampered").
  - vm_compute. reflexivity.
  - lia.
  - reflexivity.
Defined.

Lemma proof_of_work_trivial_witness :
  difficulty ledger_easy <= 0
  /\ @proof_of_work printed_clock 1 ledger_easy candidate1
     = Returns (seal candidate1 0).
Proof.
  split; [cbn; lia |].
  apply (@proof_of_work_trivial printed_clock 0%nat ledger_easy candidate1).
  cbn. lia.
Defined.

Lemma proof_of_work_hopeless_witness :
  64 < difficulty ledger_hopeless
  /\ @proof_of_work printed_clock 30 ledger_hopeless candidate1 = OutOfFuel.
Proof.
  split; [cbn; lia |].
  apply (@proof_of_work_hopeless printed_clock 30%nat ledger_hopeless candidate1).
  cbn. lia.
Defined.

Lemma proof_of_work_progress_witness :
  snd (@proof_of_work_io printed_clock 1100 ledger0 slow_candidate)
  = Returns slow_block
  /\ (@proof_of_work printed_clock 1100 ledger0 slow_candidate
      = Returns slow_block
      /\ fst (@proof_of_work_io printed_clock 1100 ledger0 slow_candidate)
         = map (fun m : nat =>
                  Printed ("Still mining... tried proof: "
                           ++ str_int (1000 * Z.of_nat m))%string)
               (seq 1 (Z.to_nat (proof slow_block / 1000)))).
Proof.
  assert (H : snd (@proof_of_work_io printed_clock 1100 ledger0 slow_candidate)
              = Returns slow_block).
  { vm_compute. reflexivity. }
  split; [exact H |].
  apply (@proof_of_work_progress printed_clock 1100%nat ledger0 slow_candidate
           slow_block).
  exact H.
Defined.

Lemma add_data_lines_witness :
  snd (@add_data_io printed_clock 20 "1730000001.5" "payment" ledger0)
  = Returns ledger1
  /\ (@add_data printed_clock 20 "1730000001.5" "payment" ledger0
      = Returns ledger1
      /\ exists new_block : @Block printed_clock,
           chain ledger1 = chain ledger0 ++ [new_block]
           /\ fst (@add_data_io printed_clock 20 "1730000001.5" "payment"
                     ledger0)
              = progress_lines (proof new_block)
                ++ [Printed ("Block "
                             ++ str_int (Z.of_nat (List.length (chain ledger0)))
                             ++ " mined with proof "
                             ++ str_int (proof new_block) ++ "!")%string]).
Proof.
  assert (H : snd (@add_data_io printed_clock 20 "1730000001.5" "payment"
                     ledger0) = Returns ledger1).
  { vm_compute. reflexivity. }
  split; [exact H |].
  apply (@add_data_lines printed_clock 20%nat "1730000001.5" "payment"
           ledger0 ledger1).
  exact H.
Defined.

Lemma is_chain_valid_diagnostic_witness :
  @is_chain_valid printed_clock ledger1_tampered = false
  /\ (snd (is_chain_valid_io ledger1_tampered) = is_chain_valid ledger1_tampered
      /\ (is_chain_valid ledger1_tampered = true ->
          fst (is_chain_valid_io ledger1_tampered) = [])
      /\ (is_chain_valid ledger1_tampered = false ->
          exists (i : nat) (current previous : @Block printed_clock),
            (1 <= i)%nat
            /\ nth_error (chain ledger1_tampered) i = Some current
            /\ nth_error (chain ledger1_tampered) (i - 1) = Some previous
            /\ (forall j : nat, (1 <= j < i)%nat ->
                  block_passes (chain ledger1_tampered) j)
            /\ (hash current <> calculate_hash current
                \/ previous_hash current <> hash previous)
            /\ fst (is_chain_valid_io ledger1_tampered)
               = [if (hash current =? calculate_hash current)%string
                  then Printed ("Block " ++ str_int (index current)
                                ++ " previous hash doesn't match!")%string
                  else Printed ("Block " ++ str_int (index current)
                                ++ " hash mismatch!")%string])).
Proof.
  split; [vm_compute; reflexivity |].
  exact (@is_chain_valid_diagnostic printed_clock ledger1_tampered).
Defined.

Lemma session_exit_needs_choice_4_witness :
  (forall line : string, In line ["2"; " 3"; "four"] -> strip_ascii line <> "4")
  /\ session_end
       (@main printed_clock strip_ascii 20 session_times ["2"; " 3"; "four"])
     <> Exited.
Proof.
  assert (H : forall line : string,
            In line ["2"; " 3"; "four"] -> strip_ascii line <> "4").
  { intros line [<- | [<- | [<- | []]]]; vm_compute; discriminate. }
  split; [exact H |].
  apply (@session_exit_needs_choice_4 printed_clock strip_ascii 20%nat
           session_times ["2"; " 3"; "four"]).
  exact H.
Defined.

Lemma session_without_choice_1_witness :
  (forall line : string, In line ["3"; "2"; "11"; "4"] -> strip_ascii line <> "1")
  /\ session_ledger
       (@main printed_clock strip_ascii 20 session_times ["3"; "2"; "11"; "4"])
     = @Blockchain_init printed_clock (session_times 0%nat).
Proof.
  assert (H : forall line : string,
            In line ["3"; "2"; "11"; "4"] -> strip_ascii line <> "1").
  { intros line [<- | [<- | [<- | [<- | []]]]]; vm_compute; discriminate. }
  split; [exact H |].
  apply (@session_without_choice_1 printed_clock strip_ascii 20%nat
           session_times ["3"; "2"; "11"; "4"]).
  exact H.
Defined.

Lemma session_payloads_witness :
  (session_end (@main printed_clock strip_ascii 20 session_times session_stdin)
   = Exited
   \/ session_end
        (@main printed_clock strip_ascii 20 session_times session_stdin)
      = RaisedEOFError)
  /\ map data
       (chain (session_ledger
                 (@main printed_clock strip_ascii 20 session_times
                    session_stdin)))
     = text "Genesis Block" :: payloads strip_ascii session_stdin.
Proof.
  assert (H : session_end
                (@main printed_clock strip_ascii 20 session_times session_stdin)
              = Exited
              \/ session_end
                   (@main printed_clock strip_ascii 20 session_times
                      session_stdin)
                 = RaisedEOFError).
  { left. vm_compute. reflexivity. }
  split; [exact H |].
  apply (@session_payloads printed_clock strip_ascii 20%nat session_times
           session_stdin).
  exact H.
Defined.
